(** * Downloads organizer: a shallow embedding and its verified properties

  The repository holds two programs that sort the files of a downloads
  directory into category subfolders by extension:

  - [organize_downloads_vibed.py]: category table with a fallback category,
    renaming on collision, dry-run mode, logging (module [Vibed]);
  - [downloads_organizer_planned.py]: a fixed five-entry mapping, files with
    an occupied destination or an unmapped extension are left in place,
    per-category summary (module [Planned]).

  Both are embedded over a small model of the file system ([Fs]) and of the
  parts of [pathlib] they call ([Pathlib]). *)

From Stdlib Require Import Ascii DecimalString DecimalNat.
From stdpp Require Import gmap strings list fin_maps.

Set Default Proof Using "Type".
#[local] Set Warnings "-register-all".

(* ===================================================================== *)
(** ** Paths: the string functions of [pathlib] and [str] that are used *)
(* ===================================================================== *)

Module Pathlib.

(** [str.lower] on one character. File names are modelled as strings of
    8-bit characters; only the ASCII letters have a lower-case form. *)
Definition lower_char (c : ascii) : ascii :=
  let n := nat_of_ascii c in
  if (65 <=? n) && (n <=? 90) then ascii_of_nat (n + 32) else c.

Fixpoint lower (s : string) : string :=
  match s with
  | EmptyString => EmptyString
  | String c s' => String (lower_char c) (lower s')
  end.

(** [s.rfind(c)]: index of the last occurrence, [None] for Python's -1. *)
Fixpoint rfind (c : ascii) (s : string) : option nat :=
  match s with
  | EmptyString => None
  | String a s' =>
      match rfind c s' with
      | Some i => Some (S i)
      | None => if Ascii.eqb a c then Some 0 else None
      end
  end.

(** [PurePath.suffix] and [PurePath.stem] of a one-component path:
    [i = name.rfind('.')]; when [0 < i < len(name) - 1] the name splits
    at [i], otherwise the suffix is empty and the stem is the name. *)
Definition split_at_dot (name : string) : option nat :=
  match rfind "."%char name with
  | Some i => if (0 <? i) && (i <? String.length name - 1) then Some i else None
  | None => None
  end.

Definition suffix (name : string) : string :=
  match split_at_dot name with
  | Some i => String.substring i (String.length name - i) name
  | None => ""
  end.

Definition stem (name : string) : string :=
  match split_at_dot name with
  | Some i => String.substring 0 i name
  | None => name
  end.

(** [f"{counter}"]: the decimal numeral of a natural number. *)
Definition str (n : nat) : string := NilEmpty.string_of_uint (Nat.to_uint n).

End Pathlib.

(* ===================================================================== *)
(** ** The file system under the target directory *)
(* ===================================================================== *)

Module Fs.

(** A path names a regular file with its contents, or a directory with
    its entries. The state of a path that may not exist is an
    [option node]. *)
Inductive node :=
| File (data : string)
| Dir (children : gmap string node).

(** Python exceptions that the modelled calls raise. [OSError] stands for
    any failure of the platform's move primitive (permissions, file in
    use, ...); [ShutilError] is [shutil.Error]. *)
Inductive exn :=
| FileNotFoundError
| NotADirectoryError
| FileExistsError
| ShutilError
| OSError.

#[global] Instance exn_eq_dec : EqDecision exn.
Proof. solve_decision. Defined.

(** [(base / name).is_file()] *)
Definition is_file (base : gmap string node) (name : string) : bool :=
  match base !! name with
  | Some (File _) => true
  | _ => false
  end.

(** [(base / folder).is_dir()] with the folder's entries. *)
Definition folder_entries (base : gmap string node) (folder : string)
  : option (gmap string node) :=
  match base !! folder with
  | Some (Dir ch) => Some ch
  | _ => None
  end.

(** [(base / folder / name).exists()]: false when [folder] is missing or
    is not a directory. *)
Definition path_exists (base : gmap string node) (folder name : string) : bool :=
  match folder_entries base folder with
  | Some ch => bool_decide (is_Some (ch !! name))
  | None => false
  end.

(** [(base / name).mkdir(exist_ok=True)] where [base] is the state of the
    parent path: the parent must be a directory; an existing directory is
    left alone; an existing regular file raises [FileExistsError]. *)
Definition mkdir_exist_ok (base : option node) (name : string)
  : exn + option node :=
  match base with
  | None => inl FileNotFoundError
  | Some (File _) => inl NotADirectoryError
  | Some (Dir d) =>
      match d !! name with
      | None => inr (Some (Dir (<[name := Dir ∅]> d)))
      | Some (Dir _) => inr base
      | Some (File _) => inl FileExistsError
      end
  end.

(** [shutil.move(base / src, base / folder / dst)] for a regular file
    [src]. [move_fails] tells for which sources the platform refuses the
    move; a refused move changes nothing. Otherwise the call behaves as
    [os.rename] does on POSIX: a regular file at the destination is
    replaced; when the destination is a directory the file is moved into
    it under its own name, unless that name is taken there. *)
Definition shutil_move (move_fails : string → bool) (base : gmap string node)
    (src folder dst : string) : exn + gmap string node :=
  if move_fails src then inl OSError else
  match base !! src with
  | Some (File data) =>
      match folder_entries base folder with
      | Some ch =>
          match ch !! dst with
          | Some (Dir sub) =>
              match sub !! src with
              | Some _ => inl ShutilError
              | None =>
                  inr (<[folder := Dir (<[dst := Dir (<[src := File data]> sub)]> ch)]>
                         (delete src base))
              end
          | _ => inr (<[folder := Dir (<[dst := File data]> ch)]> (delete src base))
          end
      | None => inl FileNotFoundError
      end
  | _ => inl FileNotFoundError
  end.

End Fs.

(* ===================================================================== *)
(** ** Effects: state, output and exceptions *)
(* ===================================================================== *)

Module Eff.
Import Fs.

(** What a run can touch: the state of the target path and the lines
    written so far (log records or printed lines, of type [O]). *)
Record world (O : Type) := World { fs : option node; out : list O }.
Arguments World {O} fs out.
Arguments fs {O} w.
Arguments out {O} w.

(** A computation returns, raises a Python exception, or exhausts the
    fuel given to a [while] loop. *)
Inductive outcome (A : Type) :=
| Ret (a : A)
| Raise (e : exn)
| Diverge.
Arguments Ret {A} a.
Arguments Raise {A} e.
Arguments Diverge {A}.

Definition M (O A : Type) : Type := world O → world O * outcome A.

Definition raise {O A} (e : exn) : M O A := λ w, (w, Raise e).
Definition diverge {O A} : M O A := λ w, (w, Diverge).

Definition ret {O A} (a : A) : M O A := λ w, (w, Ret a).

(** Sequencing stops at the first exception. *)
Definition bind {O A B} (m : M O A) (k : A → M O B) : M O B :=
  λ w, match m w with
       | (w', Ret a) => k a w'
       | (w', Raise e) => (w', Raise e)
       | (w', Diverge) => (w', Diverge)
       end.

(** [try: body  except Exception as e: handler e] *)
Definition try_except {O A} (body : M O A) (handler : exn → M O A) : M O A :=
  λ w, match body w with
       | (w', Raise e) => handler e w'
       | r => r
       end.

(** [logging.info(...)], [logging.error(...)], [print(...)] *)
Definition emit {O} (o : O) : M O unit :=
  λ w, (World (fs w) (out w ++ [o]), Ret tt).

(** Reading the directory at the target path. *)
Definition base_entries {O} (w : world O) : gmap string node :=
  match fs w with
  | Some (Dir d) => d
  | _ => ∅
  end.

Definition target_exists {O} : M O bool :=
  λ w, (w, Ret (bool_decide (is_Some (fs w)))).

Definition is_file {O} (name : string) : M O bool :=
  λ w, (w, Ret (Fs.is_file (base_entries w) name)).

Definition path_exists {O} (folder name : string) : M O bool :=
  λ w, (w, Ret (Fs.path_exists (base_entries w) folder name)).

Definition mkdir_exist_ok {O} (name : string) : M O unit :=
  λ w, match Fs.mkdir_exist_ok (fs w) name with
       | inl e => (w, Raise e)
       | inr s => (World s (out w), Ret tt)
       end.

(** [downloads_path.iterdir()]: the names of the entries, in the order
    [listing] in which the file system yields them. *)
Definition iterdir {O} (listing : list string) : M O (list string) :=
  λ w, match fs w with
       | None => (w, Raise FileNotFoundError)
       | Some (File _) => (w, Raise NotADirectoryError)
       | Some (Dir _) => (w, Ret listing)
       end.

Definition shutil_move {O} (move_fails : string → bool) (src folder dst : string)
  : M O unit :=
  λ w, match fs w with
       | Some (Dir d) =>
           match Fs.shutil_move move_fails d src folder dst with
           | inl e => (w, Raise e)
           | inr d' => (World (Some (Dir d')) (out w), Ret tt)
           end
       | _ => (w, Raise FileNotFoundError)
       end.

(** The number of entries of a folder, used only to give [while] loops
    over its names enough fuel. *)
Definition entry_count {O} (w : world O) (folder : string) : nat :=
  match folder_entries (base_entries w) folder with
  | Some ch => size ch
  | None => 0
  end.

Notation "'let*' x := m 'in' k" := (bind m (λ x, k))
  (at level 10, x name, m at level 100, k at level 200,
   format "'[v' 'let*'  x  :=  m  'in'  '/' k ']'").
Notation "'do' m 'in' k" := (bind m (λ _, k))
  (at level 10, m at level 100, k at level 200,
   format "'[v' 'do'  m  'in'  '/' k ']'").

End Eff.

(* ===================================================================== *)
(** ** organize_downloads_vibed.py *)
(* ===================================================================== *)

Module Vibed.
Import Pathlib Fs Eff.

(** The log lines the program writes. *)
Inductive record :=
| Info_organizing (folder : string)
| Info_would_move (name category destination : string)
| Info_moved (name category destination : string)
| Error_moving (name : string) (e : exn)
| Info_complete (files_moved : nat)
| Info_dry_run_complete (files_moved : nat)
| Info_cancelled
| Error_invalid_choice
| Error_occurred (e : exn).

#[global] Instance record_eq_dec : EqDecision record.
Proof. solve_decision. Defined.

(** The dict of [get_file_categories], in insertion order. *)
Definition get_file_categories : list (string * gset string) :=
  [ ("Images", list_to_set [".jpg"; ".jpeg"; ".png"; ".gif"; ".bmp"; ".tiff"; ".svg"; ".webp"; ".ico"]);
    ("Documents", list_to_set [".pdf"; ".doc"; ".docx"; ".txt"; ".rtf"; ".odt"; ".pages"; ".tex"]);
    ("Spreadsheets", list_to_set [".xls"; ".xlsx"; ".csv"; ".ods"; ".numbers"]);
    ("Presentations", list_to_set [".ppt"; ".pptx"; ".odp"; ".key"]);
    ("Videos", list_to_set [".mp4"; ".avi"; ".mkv"; ".mov"; ".wmv"; ".flv"; ".webm"; ".m4v"]);
    ("Audio", list_to_set [".mp3"; ".wav"; ".flac"; ".aac"; ".ogg"; ".wma"; ".m4a"]);
    ("Archives", list_to_set [".zip"; ".rar"; ".7z"; ".tar"; ".gz"; ".bz2"; ".xz"]);
    ("Executables", list_to_set [".exe"; ".msi"; ".deb"; ".rpm"; ".dmg"; ".pkg"; ".app"]);
    ("Code", list_to_set [".py"; ".js"; ".html"; ".css"; ".java"; ".cpp"; ".c"; ".php"; ".rb"; ".go"; ".rs"]);
    ("Ebooks", list_to_set [".epub"; ".mobi"; ".azw"; ".azw3"; ".fb2"]) ].

(** [get_downloads_folder], given the entries of the home directory. *)
Definition get_downloads_folder (home : gmap string node) : exn + string :=
  if bool_decide (is_Some (home !! "Downloads")) then inr "Downloads"
  else if bool_decide (is_Some (home !! "downloads")) then inr "downloads"
  else inl FileNotFoundError.

(** The [for category, extensions in categories.items()] loop of
    [categorize_file]. *)
Fixpoint first_category (file_extension : string)
    (categories : list (string * gset string)) : option string :=
  match categories with
  | [] => None
  | (category, extensions) :: rest =>
      if bool_decide (file_extension ∈ extensions) then Some category
      else first_category file_extension rest
  end.

Definition categorize_file (name : string)
    (categories : list (string * gset string)) : string :=
  let file_extension := lower (suffix name) in
  match first_category file_extension categories with
  | Some category => category
  | None => "Others"
  end.

Fixpoint mkdir_each (names : list string) : M record unit :=
  match names with
  | [] => ret tt
  | category :: rest =>
      do mkdir_exist_ok category in
      mkdir_each rest
  end.

Definition create_category_folders (categories : list (string * gset string))
  : M record unit :=
  do mkdir_each categories.*1 in
  mkdir_exist_ok "Others".

(** [f"{base_name}_{counter}{extension}"] *)
Definition new_name (base_name extension : string) (counter : nat) : string :=
  base_name +:+ "_" +:+ str counter +:+ extension.

(** The [while destination_path.exists()] loop; [destination] is the
    name of [destination_path] inside [folder]. *)
Fixpoint while_exists (fuel : nat) (folder base_name extension : string)
    (destination : string) (counter : nat) : M record string :=
  let* e := path_exists folder destination in
  if e then
    match fuel with
    | 0 => diverge
    | S fuel' =>
        while_exists fuel' folder base_name extension
          (new_name base_name extension counter) (S counter)
    end
  else ret destination.

(** Lines 76-85: the destination name of [item] inside [category]. The
    loop gets one unit of fuel more than the folder has entries. *)
Definition resolve_destination (category item : string) : M record string :=
  let* e := path_exists category item in
  if e then
    λ w, while_exists (S (entry_count w category)) category (stem item) (suffix item)
           item 1 w
  else ret item.

(** The body of the [for item in downloads_folder.iterdir()] loop. *)
Definition process_item (move_fails : string → bool) (dry_run : bool)
    (item : string) (files_moved : nat) : M record nat :=
  let* f := is_file item in
  if f then
    let category := categorize_file item get_file_categories in
    let* destination := resolve_destination category item in
    if dry_run then
      do emit (Info_would_move item category destination) in
      ret files_moved
    else
      try_except
        (do shutil_move move_fails item category destination in
         do emit (Info_moved item category destination) in
         ret (S files_moved))
        (λ e, do emit (Error_moving item e) in ret files_moved)
  else ret files_moved.

Fixpoint for_each_item (move_fails : string → bool) (dry_run : bool)
    (items : list string) (files_moved : nat) : M record nat :=
  match items with
  | [] => ret files_moved
  | item :: rest =>
      let* files_moved' := process_item move_fails dry_run item files_moved in
      for_each_item move_fails dry_run rest files_moved'
  end.

(** [organize_downloads(downloads_folder, dry_run)]; the world holds the
    state of [downloads_folder], [listing] is the order of [iterdir]. The
    result is the final value of [files_moved]. *)
Definition organize_downloads (move_fails : string → bool)
    (listing : list string) (dry_run : bool) : M record nat :=
  do (if dry_run then ret tt else create_category_folders get_file_categories) in
  let* items := iterdir listing in
  let* files_moved := for_each_item move_fails dry_run items 0 in
  do (if dry_run then emit (Info_dry_run_complete files_moved)
      else emit (Info_complete files_moved)) in
  ret files_moved.


End Vibed.

(* ===================================================================== *)
(** ** downloads_organizer_planned.py *)
(* ===================================================================== *)

Module Planned.
Import Pathlib Fs Eff.

(** The lines the program prints. *)
Inductive line :=
| Print_not_found
| Print_moved (name folder : string)
| Print_error (name : string) (e : exn)
| Print_summary
| Print_count (folder : string) (count : nat)
| Print_total (total_moved : nat).

#[global] Instance line_eq_dec : EqDecision line.
Proof. solve_decision. Defined.

(** The dict [folder_mapping], in insertion order. *)
Definition folder_mapping : list (string * string) :=
  [ (".pdf", "Documents");
    (".jpg", "Images");
    (".jpeg", "Images");
    (".mp4", "Videos");
    (".zip", "Archives") ].

(** [folder_mapping[file_ext]], [None] when [file_ext not in folder_mapping]. *)
Fixpoint mapping_get (mapping : list (string * string)) (file_ext : string)
  : option string :=
  match mapping with
  | [] => None
  | (ext, folder) :: rest =>
      if String.eqb ext file_ext then Some folder else mapping_get rest file_ext
  end.

(** [moved_files[folder].append(name)] on a [defaultdict(list)] kept in
    insertion order. *)
Fixpoint append_moved (moved_files : list (string * list string))
    (folder name : string) : list (string * list string) :=
  match moved_files with
  | [] => [(folder, [name])]
  | (f, files) :: rest =>
      if String.eqb f folder then (f, files ++ [name]) :: rest
      else (f, files) :: append_moved rest folder name
  end.

Fixpoint mkdir_each (names : list string) : M line unit :=
  match names with
  | [] => ret tt
  | folder_name :: rest =>
      do mkdir_exist_ok folder_name in
      mkdir_each rest
  end.

(** The body of the [for file_path in downloads_path.iterdir()] loop. *)
Definition process_item (move_fails : string → bool) (name : string)
    (moved_files : list (string * list string))
  : M line (list (string * list string)) :=
  let* f := is_file name in
  if f then
    let file_ext := lower (suffix name) in
    match mapping_get folder_mapping file_ext with
    | Some target_folder =>
        let* e := path_exists target_folder name in
        if negb e then
          try_except
            (do shutil_move move_fails name target_folder name in
             let moved_files' := append_moved moved_files target_folder name in
             do emit (Print_moved name target_folder) in
             ret moved_files')
            (λ e, do emit (Print_error name e) in ret moved_files)
        else ret moved_files
    | None => ret moved_files
    end
  else ret moved_files.

Fixpoint for_each_item (move_fails : string → bool) (items : list string)
    (moved_files : list (string * list string))
  : M line (list (string * list string)) :=
  match items with
  | [] => ret moved_files
  | name :: rest =>
      let* moved_files' := process_item move_fails name moved_files in
      for_each_item move_fails rest moved_files'
  end.

(** The summary loop; returns [total_moved]. *)
Fixpoint print_counts (moved_files : list (string * list string))
    (total_moved : nat) : M line nat :=
  match moved_files with
  | [] => ret total_moved
  | (folder, files) :: rest =>
      let count := length files in
      do emit (Print_count folder count) in
      print_counts rest (total_moved + count)
  end.

(** [organize_downloads()]; the world holds the state of
    [Path.home() / "Downloads"]. The result is the pair of [moved_files]
    and [total_moved], or [None] after the early [return]. *)
Definition organize_downloads (move_fails : string → bool)
    (listing : list string)
  : M line (option (list (string * list string) * nat)) :=
  let* found := target_exists in
  if negb found then
    do emit Print_not_found in
    ret None
  else
    do mkdir_each folder_mapping.*2 in
    let* items := iterdir listing in
    let* moved_files := for_each_item move_fails items [] in
    do emit Print_summary in
    let* total_moved := print_counts moved_files 0 in
    do emit (Print_total total_moved) in
    ret (Some (moved_files, total_moved)).

End Planned.

(* ===================================================================== *)
(** ** Reading the output of a run *)
(* ===================================================================== *)

Module Log.
Import Fs Eff Vibed.

(** The [(category, destination name)] pairs of the files a live run
    reports as moved, in order. *)
Definition moved_destinations (log : list record) : list (string * string) :=
  omap (λ r, match r with
             | Info_moved _ category destination => Some (category, destination)
             | _ => None
             end) log.

(** The same for the moves a dry run announces. *)
Definition planned_destinations (log : list record) : list (string * string) :=
  omap (λ r, match r with
             | Info_would_move _ category destination => Some (category, destination)
             | _ => None
             end) log.


(** The names of the files reported as moved. *)
Definition moved_names (log : list record) : list string :=
  omap (λ r, match r with
             | Info_moved name _ _ => Some name
             | _ => None
             end) log.


(** The number of files reported as moved into [category]. *)
Definition moved_into (category : string) (log : list record) : nat :=
  length (filter (λ p, p.1 = category) (moved_destinations log)).

(** The summary line: the count of the closing record, if the log has one. *)
Definition summary (log : list record) : option nat :=
  match last log with
  | Some (Info_complete n) => Some n
  | Some (Info_dry_run_complete n) => Some n
  | _ => None
  end.

(** The node at [base / folder / name]. *)
Definition lookup_in (s : option node) (folder name : string) : option node :=
  match s with
  | Some (Dir d) =>
      match folder_entries d folder with
      | Some ch => ch !! name
      | None => None
      end
  | _ => None
  end.

(** The [(name, folder)] pairs of the moves the planned program prints. *)
Definition printed_moves (lines : list Planned.line) : list (string * string) :=
  omap (λ l, match l with
             | Planned.Print_moved name folder => Some (name, folder)
             | _ => None
             end) lines.

(** The names printed as moved into [folder], in order. *)
Definition printed_into (folder : string) (lines : list Planned.line) : list string :=
  (filter (λ p, p.2 = folder) (printed_moves lines)).*1.

(** [moved_files[folder]] of the planned program, empty for a folder
    that is not a key. *)
Fixpoint files_of (moved_files : list (string * list string)) (folder : string)
  : list string :=
  match moved_files with
  | [] => []
  | (f, files) :: rest =>
      if String.eqb f folder then files else files_of rest folder
  end.

(** The per-folder lines of the planned summary. *)
Definition count_lines (moved_files : list (string * list string))
  : list Planned.line :=
  map (λ p, Planned.Print_count p.1 (length p.2)) moved_files.

End Log.

(* ===================================================================== *)
(** ** The category table as a mapping from extensions *)
(* ===================================================================== *)

Module Table.

(** No extension is listed under two categories, so that the dict of
    extension sets is a mapping from extension to category. *)
Fixpoint disjoint_extensions (categories : list (string * gset string)) : Prop :=
  match categories with
  | [] => True
  | (_, extensions) :: rest =>
      Forall (λ p, extensions ## p.2) rest ∧ disjoint_extensions rest
  end.

End Table.

(* ===================================================================== *)
(** ** What one iteration of the vibed loop does, stated on its own *)
(* ===================================================================== *)

Module Step.
Import Pathlib Fs Eff Vibed Log.

(** [destination] is the first free name for [item] in [folder]: the
    file's own name when no entry of the folder has it, and otherwise
    [stem_N.ext] for the least [N >= 1] that no entry has. *)
Definition first_free_name (base : gmap string node) (folder item : string)
    (destination : string) : Prop :=
  Fs.path_exists base folder destination = false ∧
  ((destination = item ∧ Fs.path_exists base folder item = false) ∨
   (∃ n, 1 ≤ n ∧ destination = new_name (stem item) (suffix item) n ∧
         Fs.path_exists base folder item = true ∧
         ∀ k, 1 ≤ k < n →
              Fs.path_exists base folder (new_name (stem item) (suffix item) k) = true)).

(** The four ways an iteration can go: the entry is not a regular file;
    a dry run announces the move; a live move raises; a live move
    succeeds and puts the file, with its contents, under the resolved
    name into its category folder. *)
Inductive item_step (move_fails : string → bool) (dry_run : bool) (item : string)
  : world record * nat → world record * nat → Prop :=
| step_skip w n :
    Fs.is_file (base_entries w) item = false →
    item_step move_fails dry_run item (w, n) (w, n)
| step_would_move w n destination :
    let category := categorize_file item get_file_categories in
    dry_run = true →
    Fs.is_file (base_entries w) item = true →
    first_free_name (base_entries w) category item destination →
    item_step move_fails dry_run item (w, n)
      (World (fs w) (out w ++ [Info_would_move item category destination]), n)
| step_failed w n destination e :
    let category := categorize_file item get_file_categories in
    dry_run = false →
    Fs.is_file (base_entries w) item = true →
    first_free_name (base_entries w) category item destination →
    Fs.shutil_move move_fails (base_entries w) item category destination = inl e →
    item_step move_fails dry_run item (w, n)
      (World (fs w) (out w ++ [Error_moving item e]), n)
| step_moved w n destination d data ch :
    let category := categorize_file item get_file_categories in
    dry_run = false →
    move_fails item = false →
    fs w = Some (Dir d) →
    d !! item = Some (File data) →
    folder_entries d category = Some ch →
    first_free_name d category item destination →
    ch !! destination = None →
    item_step move_fails dry_run item (w, n)
      (World (Some (Dir (<[category := Dir (<[destination := File data]> ch)]>
                           (delete item d))))
             (out w ++ [Info_moved item category destination]), S n).

(** What [create_category_folders] may have done to the target, whether
    it returned or raised: nothing is written to the log, entries are
    kept as they are, and every new entry is an empty directory. *)
Definition folders_added (w w' : world record) : Prop :=
  out w' = out w ∧
  match fs w with
  | Some (Dir d) =>
      ∃ d', fs w' = Some (Dir d') ∧
            ∀ x, d' !! x = d !! x ∨ (d !! x = None ∧ d' !! x = Some (Dir ∅))
  | s => fs w' = s
  end.

(** What a stretch of a live pass has done between two worlds, with the
    records [recs] it wrote: entries of folders are kept; no regular
    file appears at the top level, and no name appears there; every
    record is a reported move or a reported failure; a file reported as
    moved was a regular file at the top level, is gone from there, and
    lies with its contents under the reported name, which was free, in
    the folder of its category; no destination and no source is
    reported twice. *)
Definition pass_effect (w w' : world record) (recs : list record) : Prop :=
  out w' = out w ++ recs ∧
  (∀ folder name nd,
      lookup_in (fs w) folder name = Some nd →
      lookup_in (fs w') folder name = Some nd) ∧
  (∀ x data,
      base_entries w' !! x = Some (File data) →
      base_entries w !! x = Some (File data)) ∧
  (∀ x, base_entries w !! x = None → base_entries w' !! x = None) ∧
  Forall (λ r, match r with
               | Info_moved _ _ _ | Error_moving _ _ => True
               | _ => False
               end) recs ∧
  (∀ x c destination,
      Info_moved x c destination ∈ recs →
      c = categorize_file x get_file_categories ∧
      lookup_in (fs w) c destination = None ∧
      base_entries w' !! x = None ∧
      ∃ data, base_entries w !! x = Some (File data) ∧
              lookup_in (fs w') c destination = Some (File data)) ∧
  NoDup (moved_destinations recs) ∧
  NoDup (moved_names recs).


End Step.

(* ===================================================================== *)
(** ** What a stretch of the planned loop does, stated on its own *)
(* ===================================================================== *)

Module PlannedStep.
Import Pathlib Fs Eff Log.

(** The planned program has nowhere to put [x]: its extension is not a
    key of the mapping, or its name is taken in the folder of its
    extension. *)
Definition no_place (s : option node) (x : string) : Prop :=
  Planned.mapping_get Planned.folder_mapping (lower (suffix x)) = None ∨
  ∃ folder,
    Planned.mapping_get Planned.folder_mapping (lower (suffix x)) = Some folder ∧
    is_Some (lookup_in s folder x).

(** What the loop has done between two worlds, with the lines [lines] it
    printed: entries of folders are kept; a regular file that has no place
    stays; no regular file and no name appears at the top level; a file
    printed as moved was a regular file at the top level, is gone from
    there, and lies with its contents under its own name, which was free,
    in the folder of its extension. *)
Definition planned_effect (w w' : world Planned.line) (lines : list Planned.line)
  : Prop :=
  out w' = out w ++ lines ∧
  (∀ folder name nd,
      lookup_in (fs w) folder name = Some nd →
      lookup_in (fs w') folder name = Some nd) ∧
  (∀ x data,
      base_entries w !! x = Some (File data) → no_place (fs w) x →
      base_entries w' !! x = Some (File data)) ∧
  (∀ x data,
      base_entries w' !! x = Some (File data) →
      base_entries w !! x = Some (File data)) ∧
  (∀ x, base_entries w !! x = None → base_entries w' !! x = None) ∧
  (∀ x folder,
      Planned.Print_moved x folder ∈ lines →
      Planned.mapping_get Planned.folder_mapping (lower (suffix x)) = Some folder ∧
      lookup_in (fs w) folder x = None ∧
      base_entries w' !! x = None ∧
      ∃ data, base_entries w !! x = Some (File data) ∧
              lookup_in (fs w') folder x = Some (File data)).

End PlannedStep.

(* ===================================================================== *)
(** ** Strings: appending and numerals *)
(* ===================================================================== *)

Section strings.

Lemma string_length_app (s t : string) :
  String.length (s +:+ t) = String.length s + String.length t.
Proof. induction s as [|c s IH]; simpl; [done | by rewrite IH]. Qed.

Lemma string_app_inv_tail (s1 s2 t : string) :
  s1 +:+ t = s2 +:+ t → s1 = s2.
Proof.
  revert s2. induction s1 as [|c s1 IH]; intros [|c' s2] H; simpl in *.
  - done.
  - apply (f_equal String.length) in H.
    rewrite !string_length_app in H. simpl in H. lia.
  - apply (f_equal String.length) in H.
    rewrite !string_length_app in H. simpl in H. lia.
  - injection H as -> H. f_equal. by apply IH.
Qed.

Lemma str_inj (n m : nat) : Pathlib.str n = Pathlib.str m → n = m.
Proof.
  unfold Pathlib.str. intros H.
  apply (f_equal NilEmpty.uint_of_string) in H.
  rewrite !NilEmpty.usu in H. injection H as H.
  apply (f_equal Nat.of_uint) in H.
  by rewrite !Unsigned.of_to in H.
Qed.

(** Distinct counters give distinct candidate names. *)
Lemma new_name_inj (base_name extension : string) (n m : nat) :
  Vibed.new_name base_name extension n = Vibed.new_name base_name extension m →
  n = m.
Proof.
  unfold Vibed.new_name. intros H.
  apply String.app_inj in H. apply (String.app_inj "_") in H.
  apply string_app_inv_tail in H. by apply str_inj.
Qed.

End strings.

(* ===================================================================== *)
(** ** The collision-resolution loop *)
(* ===================================================================== *)

Section resolution.
Import Pathlib Fs Eff Vibed.

(** A folder cannot hold more distinct names than it has entries. *)
Lemma occupied_names_bound (ch : gmap string node) (names : list string) :
  NoDup names →
  (∀ x, x ∈ names → is_Some (ch !! x)) →
  length names ≤ size ch.
Proof.
  intros Hnd Hocc.
  rewrite <- (size_list_to_set (C := gset string) names Hnd).
  rewrite <- (size_dom ch).
  apply subseteq_size. intros x Hx.
  apply elem_of_list_to_set in Hx. apply elem_of_dom. by apply Hocc.
Qed.

Lemma candidates_NoDup (base_name extension : string) (counter n : nat) :
  NoDup (new_name base_name extension <$> seq counter n).
Proof.
  apply NoDup_fmap_2_strong; [| apply NoDup_seq].
  intros x y _ _. apply new_name_inj.
Qed.

(** Not all of [size ch + 1] consecutive candidates are taken. *)
Lemma candidates_not_all_taken (ch : gmap string node)
    (base_name extension : string) (counter : nat) :
  ¬ (∀ j, j < S (size ch) →
          is_Some (ch !! new_name base_name extension (counter + j))).
Proof.
  intros Hall.
  pose proof (occupied_names_bound ch
                (new_name base_name extension <$> seq counter (S (size ch)))
                (candidates_NoDup _ _ _ _)) as Hb.
  rewrite length_fmap, length_seq in Hb.
  enough (S (size ch) ≤ size ch) by lia. apply Hb.
  intros x Hx. apply list_elem_of_fmap in Hx as (k & -> & Hk).
  apply elem_of_seq in Hk.
  replace k with (counter + (k - counter)) by lia. apply Hall. lia.
Qed.

Lemma path_exists_true (d : gmap string node) (folder name : string) :
  Fs.path_exists d folder name = true ↔
  ∃ ch, folder_entries d folder = Some ch ∧ is_Some (ch !! name).
Proof.
  unfold Fs.path_exists. destruct (folder_entries d folder) as [ch|].
  - rewrite bool_decide_eq_true. split; [eauto | by intros (? & [= <-] & ?)].
  - split; [done | by intros (? & [=] & _)].
Qed.

Lemma path_exists_false (d : gmap string node) (folder name : string) :
  Fs.path_exists d folder name = false ↔
  ∀ ch, folder_entries d folder = Some ch → ch !! name = None.
Proof.
  unfold Fs.path_exists. destruct (folder_entries d folder) as [ch|].
  - rewrite bool_decide_eq_false, <- eq_None_not_Some.
    split; [by intros ? ? [= <-] | eauto].
  - split; [by intros _ ? [=] | done].
Qed.

(** What the loop computes within its fuel: it only reads the world, and
    either returns the first free name it meets, having found the
    starting name and all earlier candidates taken, or it runs out of
    fuel on names that are all taken. *)
Lemma while_exists_run (fuel : nat) (folder base_name extension : string) :
  ∀ (destination : string) (counter : nat) (w : world record),
    let taken x := Fs.path_exists (base_entries w) folder x = true in
    (∃ r, while_exists fuel folder base_name extension destination counter w
            = (w, Ret r) ∧
          Fs.path_exists (base_entries w) folder r = false ∧
          ((r = destination) ∨
           (∃ k, k < fuel ∧ r = new_name base_name extension (counter + k) ∧
                 taken destination ∧
                 ∀ j, j < k → taken (new_name base_name extension (counter + j)))))
    ∨ (while_exists fuel folder base_name extension destination counter w
         = (w, Diverge) ∧
       taken destination ∧
       ∀ j, j < fuel → taken (new_name base_name extension (counter + j))).
Proof.
  induction fuel as [|fuel IH]; intros destination counter w taken; simpl;
    unfold bind, Eff.path_exists;
    destruct (Fs.path_exists (base_entries w) folder destination) eqn:He.
  - right. repeat split; [done | lia].
  - left. exists destination. eauto.
  - destruct (IH (new_name base_name extension counter) (S counter) w)
      as [(r & Hr & Hfree & Hwhich) | (Hd & Hnow & Hall)].
    + left. exists r. split; [done|]. split; [done|]. right.
      destruct Hwhich as [-> | (k & Hk & -> & Hnow & Hall)].
      * exists 0. rewrite Nat.add_0_r. repeat split; [lia | done | lia].
      * exists (S k). replace (counter + S k) with (S counter + k) by lia.
        repeat split; [lia | done |].
        intros [|j] Hj; [by rewrite Nat.add_0_r|].
        replace (counter + S j) with (S counter + j) by lia. apply Hall. lia.
    + right. repeat split; [done | done |].
      intros [|j] Hj; [by rewrite Nat.add_0_r|].
      replace (counter + S j) with (S counter + j) by lia. apply Hall. lia.
  - left. exists destination. eauto.
Qed.

(** With one unit of fuel more than the folder has entries the loop
    cannot run out. *)
Lemma while_exists_enough_fuel (fuel : nat) (folder base_name extension : string)
    (destination : string) (counter : nat) (w : world record) :
  entry_count w folder < fuel →
  while_exists fuel folder base_name extension destination counter w
    ≠ (w, Diverge).
Proof.
  intros Hfuel Hdiv.
  destruct (while_exists_run fuel folder base_name extension destination counter w)
    as [(r & Hr & _) | (_ & Hnow & Hall)]; [congruence|].
  apply path_exists_true in Hnow as (ch & Hch & _).
  unfold entry_count in Hfuel. rewrite Hch in Hfuel.
  apply (candidates_not_all_taken ch base_name extension counter).
  intros j Hj. specialize (Hall j ltac:(lia)).
  apply path_exists_true in Hall as (ch' & Hch' & ?). congruence.
Qed.


(** Lines 76-85 as a whole: the destination is the file's own name when
    that is free, and otherwise the first free candidate. *)
Lemma resolve_destination_run (category item : string) (w : world record) :
  let taken x := Fs.path_exists (base_entries w) category x = true in
  ∃ destination,
    resolve_destination category item w = (w, Ret destination) ∧
    Fs.path_exists (base_entries w) category destination = false ∧
    ((destination = item ∧ ¬ taken item) ∨
     (∃ n, 1 ≤ n ∧ destination = new_name (stem item) (suffix item) n ∧
           taken item ∧
           ∀ k, 1 ≤ k < n → taken (new_name (stem item) (suffix item) k))).
Proof.
  intros taken. unfold resolve_destination, bind, Eff.path_exists.
  destruct (Fs.path_exists (base_entries w) category item) eqn:He.
  - destruct (while_exists_run (S (entry_count w category)) category
                (stem item) (suffix item) item 1 w)
      as [(r & Hr & Hfree & Hwhich) | (Hd & _)].
    + exists r. split; [done|]. split; [done|]. right.
      destruct Hwhich as [-> | (k & Hk & -> & Hnow & Hall)]; [congruence|].
      exists (1 + k). repeat split; [lia | done |].
      intros j Hj. replace j with (1 + (j - 1)) by lia. apply Hall. lia.
    + by apply while_exists_enough_fuel in Hd; [|lia].
  - exists item. split; [done|]. split; [done|]. left. split; [done|].
    unfold taken. congruence.
Qed.

End resolution.

(* ===================================================================== *)
(** ** The vibed loop, iteration by iteration *)
(* ===================================================================== *)

Section vibed_steps.
Import Pathlib Fs Eff Vibed Step.

Lemma base_entries_is_file (w : world record) (item : string) :
  Fs.is_file (base_entries w) item = true →
  ∃ d data, fs w = Some (Dir d) ∧ d !! item = Some (File data).
Proof.
  unfold base_entries, Fs.is_file. destruct (fs w) as [[?|d]|].
  - by rewrite lookup_empty.
  - destruct (d !! item) as [[data|?]|] eqn:E; try done. eauto.
  - by rewrite lookup_empty.
Qed.

Lemma first_free_name_free (d ch : gmap string node) (folder item destination : string) :
  first_free_name d folder item destination →
  folder_entries d folder = Some ch →
  ch !! destination = None.
Proof. intros [Hfree _] Hch. by eapply path_exists_false. Qed.

(** A move to a free name in an existing folder can fail only because
    the platform refuses it. *)
Lemma shutil_move_free (move_fails : string → bool) (d ch : gmap string node)
    (src folder dst data : string) :
  d !! src = Some (File data) →
  folder_entries d folder = Some ch →
  ch !! dst = None →
  Fs.shutil_move move_fails d src folder dst =
    if move_fails src then inl OSError
    else inr (<[folder := Dir (<[dst := File data]> ch)]> (delete src d)).
Proof.
  intros Hsrc Hch Hdst. unfold Fs.shutil_move.
  destruct (move_fails src); [done|]. by rewrite Hsrc, Hch, Hdst.
Qed.

(** Every iteration returns, and goes one of the four ways. *)
Lemma process_item_run (move_fails : string → bool) (dry_run : bool)
    (item : string) (n : nat) (w : world record) :
  ∃ w' n',
    process_item move_fails dry_run item n w = (w', Ret n') ∧
    item_step move_fails dry_run item (w, n) (w', n').
Proof.
  unfold process_item, bind at 1, Eff.is_file.
  destruct (Fs.is_file (base_entries w) item) eqn:Hfile.
  2:{ exists w, n. split; [done|]. by constructor. }
  set (category := categorize_file item get_file_categories).
  destruct (resolve_destination_run category item w)
    as (destination & Hres & Hfree & Hwhich).
  assert (first_free_name (base_entries w) category item destination) as Hffn.
  { split; [done|]. destruct Hwhich as [[-> Hn] | Hc]; [left | by right].
    split; [done|]. by apply not_true_is_false. }
  unfold bind at 1. rewrite Hres.
  destruct dry_run.
  { eexists _, _. split; [reflexivity|]. by apply step_would_move. }
  destruct (base_entries_is_file w item Hfile) as (d & data & Hfs & Hitem).
  assert (base_entries w = d) as Hbase by (unfold base_entries; by rewrite Hfs).
  unfold try_except, bind, Eff.shutil_move, emit. rewrite Hfs. simpl.
  destruct (Fs.shutil_move move_fails d item category destination) as [e|d'] eqn:Hmv.
  { simpl. eexists _, _. split; [reflexivity|].
    apply (step_failed _ _ _ _ _ destination); [done..|]. by rewrite Hbase. }
  simpl. eexists _, _. split; [reflexivity|].
  rewrite Hbase in Hffn.
  destruct (folder_entries d category) as [ch|] eqn:Hch.
  2:{ unfold Fs.shutil_move in Hmv. rewrite Hitem, Hch in Hmv.
      by destruct (move_fails item). }
  pose proof (first_free_name_free _ _ _ _ _ Hffn Hch) as Hdst.
  rewrite (shutil_move_free _ _ _ _ _ _ _ Hitem Hch Hdst) in Hmv.
  destruct (move_fails item) eqn:Hmf; [done|]. injection Hmv as <-.
  by eapply step_moved.
Qed.

(** A property kept by every iteration is kept by the loop, which
    always returns. *)
Lemma for_each_item_run (move_fails : string → bool) (dry_run : bool)
    (I : world record → nat → Prop) :
  (∀ item w n w' n',
      I w n → item_step move_fails dry_run item (w, n) (w', n') → I w' n') →
  ∀ items n w,
    I w n →
    ∃ w' n', for_each_item move_fails dry_run items n w = (w', Ret n') ∧ I w' n'.
Proof.
  intros Hstep items. induction items as [|item items IH]; intros n w HI; simpl.
  - by exists w, n.
  - destruct (process_item_run move_fails dry_run item n w) as (w1 & n1 & Hrun & Hs).
    unfold bind. rewrite Hrun. apply IH. by eapply Hstep.
Qed.

End vibed_steps.

(* ===================================================================== *)
(** ** The vibed run as a whole *)
(* ===================================================================== *)

Section vibed_run.
Import Pathlib Fs Eff Vibed Step.

Lemma folders_added_refl (w : world record) : folders_added w w.
Proof.
  split; [done|]. destruct (fs w) as [[?|d]|]; try done.
  exists d. split; [done|]. by left.
Qed.

Lemma folders_added_trans (w1 w2 w3 : world record) :
  folders_added w1 w2 → folders_added w2 w3 → folders_added w1 w3.
Proof.
  intros [Ho1 H1] [Ho2 H2]. split; [congruence|].
  destruct (fs w1) as [[?|d1]|].
  - by rewrite H1 in H2.
  - destruct H1 as (d2 & Hfs2 & H1). rewrite Hfs2 in H2.
    destruct H2 as (d3 & Hfs3 & H2). exists d3. split; [done|].
    intros x. destruct (H1 x) as [E1|[E1 E1']], (H2 x) as [E2|[E2 E2']];
      [left; congruence | right; split; congruence ..].
  - by rewrite H1 in H2.
Qed.

(** One [mkdir(exist_ok=True)]: it returns or raises, and in both cases
    has at most added one empty directory. *)
Lemma mkdir_exist_ok_run (name : string) (w : world record) :
  ∃ w', folders_added w w' ∧
        (Eff.mkdir_exist_ok name w = (w', Ret tt) ∨
         ∃ e, Eff.mkdir_exist_ok name w = (w', Raise e) ∧ w' = w).
Proof.
  unfold Eff.mkdir_exist_ok, Fs.mkdir_exist_ok.
  destruct (fs w) as [[data|d]|] eqn:Hfs.
  - exists w. split; [apply folders_added_refl | right; eauto].
  - destruct (d !! name) as [[?|?]|] eqn:Hn.
    + exists w. split; [apply folders_added_refl | right; eauto].
    + exists (World (Some (Dir d)) (out w)). split; [|by left].
      split; [done|]. rewrite Hfs. exists d. split; [done|]. by left.
    + exists (World (Some (Dir (<[name := Dir ∅]> d))) (out w)). split; [|by left].
      split; [done|]. rewrite Hfs. eexists. split; [done|].
      intros x. destruct (decide (name = x)) as [<-|Hne].
      * right. by rewrite lookup_insert_eq.
      * left. by rewrite lookup_insert_ne.
  - exists w. split; [apply folders_added_refl | right; eauto].
Qed.

Lemma mkdir_each_run (names : list string) :
  ∀ w, ∃ w', folders_added w w' ∧
             (mkdir_each names w = (w', Ret tt) ∨
              ∃ e, mkdir_each names w = (w', Raise e)).
Proof.
  induction names as [|name names IH]; intros w; simpl.
  - exists w. split; [apply folders_added_refl | by left].
  - unfold bind.
    destruct (mkdir_exist_ok_run name w) as (w1 & Hadd1 & [-> | (e & -> & ->)]).
    + destruct (IH w1) as (w2 & Hadd2 & Hrun). exists w2.
      split; [by eapply folders_added_trans | done].
    + exists w. split; [done | right; eauto].
Qed.

Lemma create_category_folders_run (categories : list (string * gset string))
    (w : world record) :
  ∃ w', folders_added w w' ∧
        (create_category_folders categories w = (w', Ret tt) ∨
         ∃ e, create_category_folders categories w = (w', Raise e)).
Proof.
  unfold create_category_folders, bind.
  destruct (mkdir_each_run categories.*1 w) as (w1 & Hadd1 & [-> | (e & ->)]).
  - destruct (mkdir_exist_ok_run "Others" w1) as (w2 & Hadd2 & [-> | (e & -> & ->)]).
    + exists w2. split; [by eapply folders_added_trans | by left].
    + exists w1. split; [done | right; eauto].
  - exists w1. split; [done | right; eauto].
Qed.

(** A live run: either folder creation raises and nothing else is done,
    or the folders are there, the loop runs over the listing and the
    closing record carries its counter. *)
Lemma organize_downloads_live_run (move_fails : string → bool)
    (listing : list string) (w : world record) :
  (∃ w1 e, folders_added w w1 ∧
           organize_downloads move_fails listing false w = (w1, Raise e)) ∨
  (∃ w1 w2 n, folders_added w w1 ∧
              is_Some (fs w) ∧
              for_each_item move_fails false listing 0 w1 = (w2, Ret n) ∧
              organize_downloads move_fails listing false w =
                (World (fs w2) (out w2 ++ [Info_complete n]), Ret n)).
Proof.
  destruct (create_category_folders_run get_file_categories w)
    as (w1 & Hadd & [Hc | (e & Hc)]).
  2:{ left. exists w1, e. split; [done|].
      unfold organize_downloads, bind. by rewrite Hc. }
  pose proof Hadd as [_ Hfs].
  destruct (fs w) as [[data|d]|] eqn:Hw.
  - left. exists w1, NotADirectoryError. split; [done|].
    unfold organize_downloads, bind, iterdir. by rewrite Hc, Hfs.
  - destruct Hfs as (d1 & Hfs & _). right.
    destruct (for_each_item_run move_fails false (λ _ _, True) ltac:(done)
                listing 0 w1 I) as (w2 & n & Hloop & _).
    exists w1, w2, n. split; [done|]. split; [done|]. split; [done|].
    unfold organize_downloads, bind, iterdir, emit. by rewrite Hc, Hfs, Hloop.
  - left. exists w1, FileNotFoundError. split; [done|].
    unfold organize_downloads, bind, iterdir. by rewrite Hc, Hfs.
Qed.

(** A dry run: the target must be a directory; then the loop runs and
    the closing record carries its counter. *)
Lemma organize_downloads_dry_run (move_fails : string → bool)
    (listing : list string) (w : world record) :
  match fs w with
  | None => organize_downloads move_fails listing true w = (w, Raise FileNotFoundError)
  | Some (File _) =>
      organize_downloads move_fails listing true w = (w, Raise NotADirectoryError)
  | Some (Dir _) =>
      ∃ w2 n, for_each_item move_fails true listing 0 w = (w2, Ret n) ∧
              organize_downloads move_fails listing true w =
                (World (fs w2) (out w2 ++ [Info_dry_run_complete n]), Ret n)
  end.
Proof.
  unfold organize_downloads, bind, iterdir, ret.
  destruct (fs w) as [[data|d]|] eqn:Hw; try done.
  destruct (for_each_item_run move_fails true (λ _ _, True) ltac:(done)
              listing 0 w I) as (w2 & n & Hloop & _).
  exists w2, n. by rewrite Hloop.
Qed.

End vibed_run.

(* ===================================================================== *)
(** ** Classification *)
(* ===================================================================== *)

Section classification.
Import Pathlib Fs Eff Vibed Step Table Log.

Lemma get_file_categories_disjoint : disjoint_extensions get_file_categories.
Proof.
  unfold get_file_categories; simpl.
  repeat split; repeat (apply Forall_cons; split); try apply Forall_nil;
    simpl; compute_done.
Qed.

(** In a table with disjoint extension sets, the loop returns the one
    category that lists the extension. *)
Lemma first_category_listed (file_extension : string)
    (categories : list (string * gset string)) (category : string)
    (extensions : gset string) :
  disjoint_extensions categories →
  (category, extensions) ∈ categories →
  file_extension ∈ extensions →
  first_category file_extension categories = Some category.
Proof.
  induction categories as [|[c e] rest IH]; intros Hdis Hin Hext; simpl.
  - by apply elem_of_nil in Hin.
  - destruct Hdis as [Hhead Hrest].
    apply elem_of_cons in Hin as [[= <- <-] | Hin].
    + by rewrite bool_decide_eq_true_2.
    + rewrite bool_decide_eq_false_2; [by apply IH|].
      intros Hc. rewrite Forall_forall in Hhead.
      specialize (Hhead _ Hin). simpl in Hhead. set_solver.
Qed.





End classification.

(* ===================================================================== *)
(** ** Claims on classification *)
(* ===================================================================== *)

Section claims_classification.
Import Pathlib Fs Eff Vibed Step Table Log.




End claims_classification.

(* ===================================================================== *)
(** ** Claims on the collision search *)
(* ===================================================================== *)

Section claims_resolution.
Import Pathlib Fs Eff Vibed Step Table Log.



End claims_resolution.

(* ===================================================================== *)
(** ** Claims on dry runs and on a missing target *)
(* ===================================================================== *)

Section claims_dry_run.
Import Pathlib Fs Eff Vibed Step Table Log.

(** In a dry run the loop leaves the target as it is and never counts. *)
Lemma for_each_item_dry (move_fails : string → bool) (items : list string)
    (n : nat) (w : world record) :
  ∃ w', for_each_item move_fails true items n w = (w', Ret n) ∧ fs w' = fs w.
Proof.
  destruct (for_each_item_run move_fails true (λ w1 n1, fs w1 = fs w ∧ n1 = n))
    with (items := items) (n := n) (w := w) as (w' & n' & Hrun & Hfs & ->).
  - intros item w1 n1 w1' n1' [Hfs Hn] Hstep. by inversion Hstep; subst.
  - done.
  - by exists w'.
Qed.

(** C5: a dry run does not change the target directory: whatever the
    state of the target path, the listing and the failing moves, the
    state after [organize_downloads(..., dry_run=True)] is the state
    before; no folder is created and no file is moved. *)
Theorem dry_run_changes_nothing (move_fails : string → bool)
    (listing : list string) (w : world record) :
  fs (organize_downloads move_fails listing true w).1 = fs w.
Proof.
  pose proof (organize_downloads_dry_run move_fails listing w) as Hdry.
  destruct (fs w) as [[data|d]|] eqn:Hw.
  - by rewrite Hdry.
  - destruct Hdry as (w2 & n & Hloop & ->). simpl.
    destruct (for_each_item_dry move_fails listing 0 w) as (w' & Hloop' & Hfs).
    rewrite Hloop in Hloop'. injection Hloop' as -> _. congruence.
  - by rewrite Hdry.
Qed.

(** The counter a dry run reports is always zero. *)
Lemma dry_run_count_zero (move_fails : string → bool) (listing : list string)
    (w w' : world record) (n : nat) :
  organize_downloads move_fails listing true w = (w', Ret n) → n = 0.
Proof.
  intros Hrun.
  pose proof (organize_downloads_dry_run move_fails listing w) as Hdry.
  destruct (fs w) as [[data|d]|]; [congruence | | congruence].
  destruct Hdry as (w2 & n2 & Hloop & Hrun'). rewrite Hrun in Hrun'.
  injection Hrun' as _ ->.
  destruct (for_each_item_dry move_fails listing 0 w) as (w3 & Hloop' & _).
  congruence.
Qed.

(** C4: on a directory that holds the single file [a.txt], the dry run
    announces one move and closes with the count 0, while the live run
    on the same directory moves one file and closes with the count 1. *)
Theorem dry_run_summary_differs_from_live_run :
  let w := World (Some (Dir {["a.txt" := File "text"]})) [] in
  let dry := organize_downloads (λ _, false) ["a.txt"] true w in
  let live := organize_downloads (λ _, false) ["a.txt"] false w in
  out dry.1 = [Info_would_move "a.txt" "Documents" "a.txt"; Info_dry_run_complete 0] ∧
  dry.2 = Ret 0 ∧
  last (out live.1) = Some (Info_complete 1) ∧
  moved_names (out live.1) = ["a.txt"] ∧
  live.2 = Ret 1.
Proof. vm_compute. repeat split. Qed.



End claims_dry_run.

(* ===================================================================== *)
(** ** What a live pass does to the directory *)
(* ===================================================================== *)

Section live_pass.
Import Pathlib Fs Eff Vibed Step Table Log.

Lemma elem_of_moved_destinations (recs : list record) (c destination : string) :
  (c, destination) ∈ moved_destinations recs ↔
  ∃ x, Info_moved x c destination ∈ recs.
Proof.
  unfold moved_destinations. rewrite list_elem_of_omap. split.
  - intros (r & Hr & Heq). destruct r; try done. injection Heq as -> ->. eauto.
  - intros (x & Hx). by exists (Info_moved x c destination).
Qed.

Lemma elem_of_moved_names (recs : list record) (x : string) :
  x ∈ moved_names recs ↔ ∃ c destination, Info_moved x c destination ∈ recs.
Proof.
  unfold moved_names. rewrite list_elem_of_omap. split.
  - intros (r & Hr & Heq). destruct r; try done. injection Heq as ->. eauto.
  - intros (c & destination & Hx). by exists (Info_moved x c destination).
Qed.

Lemma pass_effect_refl (w : world record) : pass_effect w w [].
Proof.
  unfold pass_effect. rewrite app_nil_r.
  split; [done|]. split; [done|]. split; [done|]. split; [done|].
  split; [done|]. split; [|split; apply NoDup_nil_2].
  intros x c destination Hin. by apply elem_of_nil in Hin.
Qed.

Lemma pass_effect_trans (w w1 w2 : world record) (recs1 recs2 : list record) :
  pass_effect w w1 recs1 → pass_effect w1 w2 recs2 →
  pass_effect w w2 (recs1 ++ recs2).
Proof.
  intros (Ho1 & Hk1 & Hf1 & Ha1 & Hr1 & Hm1 & Hd1 & Hn1)
         (Ho2 & Hk2 & Hf2 & Ha2 & Hr2 & Hm2 & Hd2 & Hn2).
  unfold pass_effect. split; [by rewrite Ho2, Ho1, app_assoc|].
  split; [by eauto|]. split; [by eauto|]. split; [by eauto|].
  split; [by apply Forall_app|]. split; [|split].
  - intros x c destination [Hin | Hin]%elem_of_app.
    + destruct (Hm1 _ _ _ Hin) as (Hc & Hfree & Hgone & data & Hwas & Hnow).
      repeat split; [done | done | by apply Ha2 |]. exists data. split; [done|].
      by apply Hk2.
    + destruct (Hm2 _ _ _ Hin) as (Hc & Hfree & Hgone & data & Hwas & Hnow).
      repeat split; [done | | done |].
      * destruct (lookup_in (fs w) c destination) as [nd|] eqn:E; [|done].
        apply Hk1 in E. congruence.
      * exists data. split; [by apply Hf1 | done].
  - unfold moved_destinations. rewrite omap_app. apply NoDup_app.
    split; [done|]. split; [|done].
    intros [c destination] [x1 Hin1]%elem_of_moved_destinations
           [x2 Hin2]%elem_of_moved_destinations.
    destruct (Hm1 _ _ _ Hin1) as (_ & _ & _ & data & _ & Hnow).
    destruct (Hm2 _ _ _ Hin2) as (_ & Hfree & _). congruence.
  - unfold moved_names. rewrite omap_app. apply NoDup_app.
    split; [done|]. split; [|done].
    intros x (c1 & d1 & Hin1)%elem_of_moved_names (c2 & d2 & Hin2)%elem_of_moved_names.
    destruct (Hm1 _ _ _ Hin1) as (_ & _ & Hgone & _).
    destruct (Hm2 _ _ _ Hin2) as (_ & _ & _ & data & Hwas & _). congruence.
Qed.

(** A successful move, seen from the folders. *)
Lemma moved_lookup_in (d ch : gmap string node) (item category destination data : string)
    (folder name : string) :
  d !! item = Some (File data) →
  folder_entries d category = Some ch →
  lookup_in (Some (Dir (<[category := Dir (<[destination := File data]> ch)]>
                          (delete item d)))) folder name =
  if decide (folder = category) then <[destination := File data]> ch !! name
  else lookup_in (Some (Dir d)) folder name.
Proof.
  intros Hitem Hch. unfold lookup_in, folder_entries in *.
  destruct (d !! category) as [[?|ch']|] eqn:Hcat; try done. injection Hch as ->.
  destruct (decide (folder = category)) as [->|Hne].
  - by rewrite lookup_insert_eq.
  - rewrite lookup_insert_ne by done.
    destruct (decide (folder = item)) as [->|Hne'].
    + by rewrite lookup_delete_eq, Hitem.
    + by rewrite lookup_delete_ne.
Qed.

(** One live iteration has the effect of a pass; the counter goes up by
    the number of moves reported. *)
Lemma item_step_pass_effect (move_fails : string → bool) (item : string)
    (w w' : world record) (n n' : nat) :
  item_step move_fails false item (w, n) (w', n') →
  ∃ recs, pass_effect w w' recs ∧ n' = n + length (moved_names recs).
Proof.
  intros Hstep.
  inversion Hstep as [w0 n0 Hnf
                     | w0 n0 destination category Hdry Hfile Hffn
                     | w0 n0 destination e category Hdry Hfile Hffn Hmv
                     | w0 n0 destination d data ch category Hdry Hmf Hfs Hitem Hch Hffn Hfree];
    subst; try done.
  - exists []. split; [apply pass_effect_refl | simpl; lia].
  - exists [Error_moving item e]. split; [|simpl; lia].
    unfold pass_effect. simpl.
    split; [done|]. split; [done|]. split; [done|]. split; [done|].
    split; [by repeat constructor|]. split; [|split; apply NoDup_nil_2].
    intros x c dst Hin. by apply list_elem_of_singleton in Hin.
  - exists [Info_moved item category destination]. split; [|simpl; lia].
    assert (base_entries w = d) as Hbase by (unfold base_entries; by rewrite Hfs).
    assert (d !! category = Some (Dir ch)) as Hcat.
    { unfold folder_entries in Hch.
      by destruct (d !! category) as [[?|?]|]; simplify_eq. }
    assert (item ≠ category) as Hic by (intros Heq; rewrite <- Heq in Hcat; congruence).
    unfold pass_effect. cbn [fs out]. rewrite Hbase, Hfs.
    split; [done|]. split; [|split; [|split]].
    + intros folder name nd Hl. rewrite (moved_lookup_in _ _ _ _ _ _ _ _ Hitem Hch).
      case_decide as Hf; [subst folder|done].
      unfold lookup_in in Hl. rewrite Hch in Hl.
      rewrite lookup_insert_ne; [done|]. intros <-. congruence.
    + intros x data' Hx. unfold base_entries in Hx. simpl in Hx.
      destruct (decide (category = x)) as [<-|Hxc]; [by rewrite lookup_insert_eq in Hx|].
      rewrite lookup_insert_ne in Hx by done.
      destruct (decide (item = x)) as [<-|Hxi]; [by rewrite lookup_delete_eq in Hx|].
      by rewrite lookup_delete_ne in Hx.
    + intros x Hx. unfold base_entries. simpl.
      rewrite lookup_insert_ne by congruence.
      destruct (decide (item = x)) as [<-|Hxi]; [by rewrite lookup_delete_eq|].
      by rewrite lookup_delete_ne.
    + split; [by repeat constructor|]. split; [|split; apply NoDup_singleton].
      intros x c dst [= -> -> ->]%list_elem_of_singleton.
      split; [done|]. split; [|split].
      * unfold lookup_in. by rewrite Hch.
      * unfold base_entries. simpl. rewrite lookup_insert_ne by done.
        by rewrite lookup_delete_eq.
      * exists data. split; [done|].
        rewrite (moved_lookup_in _ _ _ _ _ _ _ _ Hitem Hch).
        rewrite decide_True by done. by rewrite lookup_insert_eq.
Qed.

(** The live loop as a whole. *)
Lemma for_each_item_live (move_fails : string → bool) (items : list string) :
  ∀ (n : nat) (w : world record),
  ∃ w' recs,
    for_each_item move_fails false items n w
      = (w', Ret (n + length (moved_names recs))) ∧
    pass_effect w w' recs.
Proof.
  induction items as [|item items IH]; intros n w; simpl.
  - exists w, []. split; [by rewrite Nat.add_0_r | apply pass_effect_refl].
  - destruct (process_item_run move_fails false item n w) as (w1 & n1 & Hrun & Hs).
    destruct (item_step_pass_effect _ _ _ _ _ _ Hs) as (recs1 & He1 & ->).
    destruct (IH (n + length (moved_names recs1)) w1) as (w2 & recs2 & Hrun2 & He2).
    exists w2, (recs1 ++ recs2). split; [|by eapply pass_effect_trans].
    unfold bind. rewrite Hrun, Hrun2. unfold moved_names.
    rewrite omap_app, length_app. do 2 f_equal. lia.
Qed.

End live_pass.

(* ===================================================================== *)
(** ** The live run: folder creation, then the pass *)
(* ===================================================================== *)

Section live_run.
Import Pathlib Fs Eff Vibed Step Table Log.

Lemma folders_added_kept (w w1 : world record) (folder name : string) (nd : node) :
  folders_added w w1 →
  lookup_in (fs w) folder name = Some nd →
  lookup_in (fs w1) folder name = Some nd.
Proof.
  intros [_ Hfs] Hl. destruct (fs w) as [[?|d]|]; try done.
  destruct Hfs as (d1 & -> & Hd1). unfold lookup_in, folder_entries in *.
  destruct (Hd1 folder) as [-> | [Hnone _]]; [done|]. by rewrite Hnone in Hl.
Qed.

Lemma folders_added_files (w w1 : world record) (x data : string) :
  folders_added w w1 →
  base_entries w1 !! x = Some (File data) →
  base_entries w !! x = Some (File data).
Proof.
  intros [_ Hfs] Hx. unfold base_entries in *.
  destruct (fs w) as [[?|d]|].
  - by rewrite Hfs in Hx.
  - destruct Hfs as (d1 & Hfs1 & Hd1). rewrite Hfs1 in Hx.
    destruct (Hd1 x) as [<- | [_ Hnew]]; [done | congruence].
  - by rewrite Hfs in Hx.
Qed.

(** A live run either stops in folder creation, or creates the folders,
    makes its pass and closes with the number of moves it reported. *)
Lemma organize_downloads_live_effect (move_fails : string → bool)
    (listing : list string) (w : world record) :
  (∃ w1 e, folders_added w w1 ∧
           organize_downloads move_fails listing false w = (w1, Raise e)) ∨
  (∃ w1 w2 recs,
      folders_added w w1 ∧ pass_effect w1 w2 recs ∧
      organize_downloads move_fails listing false w =
        (World (fs w2)
           (out w ++ recs ++ [Info_complete (length (moved_names recs))]),
         Ret (length (moved_names recs)))).
Proof.
  destruct (organize_downloads_live_run move_fails listing w)
    as [? | (w1 & w2 & n & Hadd & _ & Hloop & Hrun)]; [by left|]. right.
  destruct (for_each_item_live move_fails listing 0 w1) as (w2' & recs & Hloop' & He).
  rewrite Hloop in Hloop'. injection Hloop' as <- ->.
  exists w1, w2, recs. split; [done|]. split; [done|].
  rewrite Hrun. destruct He as (-> & _), Hadd as [-> _]. by rewrite <- app_assoc.
Qed.

Lemma moved_names_closed (recs : list record) (n : nat) :
  moved_names (recs ++ [Info_complete n]) = moved_names recs.
Proof. unfold moved_names. rewrite omap_app. simpl. by rewrite app_nil_r. Qed.


Lemma elem_of_closed (recs : list record) (n : nat) (x c destination : string) :
  Info_moved x c destination ∈ recs ++ [Info_complete n] ↔
  Info_moved x c destination ∈ recs.
Proof.
  rewrite elem_of_app, list_elem_of_singleton. split; [|by left].
  by intros [?|?].
Qed.

(** The count a live run returns and closes its log with is the number
    of moves it reports. *)
Lemma live_run_count (move_fails : string → bool) (listing : list string)
    (s : option node) (w' : world record) (n : nat) :
  organize_downloads move_fails listing false (World s []) = (w', Ret n) →
  summary (out w') = Some n ∧ n = length (moved_names (out w')).
Proof.
  intros Hrun.
  destruct (organize_downloads_live_effect move_fails listing (World s []))
    as [(w1 & e & _ & Hrun') | (w1 & w2 & recs & Hadd & He & Hrun')];
    rewrite Hrun in Hrun'; [done|].
  injection Hrun' as -> ->. simpl. rewrite moved_names_closed.
  split; [|done]. unfold summary. by rewrite last_snoc.
Qed.

End live_run.

(* ===================================================================== *)
(** ** Claims on live runs *)
(* ===================================================================== *)

Section claims_live.
Import Pathlib Fs Eff Vibed Step Table Log.

(** Entries of folders survive a live run, however it ends. *)
Lemma live_run_keeps_entries (move_fails : string → bool) (listing : list string)
    (w : world record) (folder name : string) (nd : node) :
  lookup_in (fs w) folder name = Some nd →
  lookup_in (fs (organize_downloads move_fails listing false w).1) folder name
    = Some nd.
Proof.
  intros Hl.
  destruct (organize_downloads_live_effect move_fails listing w)
    as [(w1 & e & Hadd & ->) | (w1 & w2 & recs & Hadd & He & ->)]; simpl.
  - by eapply folders_added_kept.
  - destruct He as (_ & Hkept & _). apply Hkept. by eapply folders_added_kept.
Qed.

(** C2: a live move never overwrites. When the file's own name is taken
    in its category folder and the platform does not refuse the move,
    the iteration moves the file to [stem_N.ext] for the least [N >= 1]
    whose name is free there: all candidates before [N] are taken, the
    file arrives with its contents under the [N]th, leaves the top level,
    is counted, and every entry the folder had is still there. Over a
    whole live run, however it ends, every entry of every folder of the
    target is kept as it was. *)
Theorem live_move_never_overwrites :
  (∀ (move_fails : string → bool) (item : string) (files_moved : nat)
     (log : list record) (d ch : gmap string node) (data : string),
      let category := categorize_file item get_file_categories in
      let candidate := new_name (stem item) (suffix item) in
      d !! item = Some (File data) →
      folder_entries d category = Some ch →
      is_Some (ch !! item) →
      move_fails item = false →
      ∃ N, 1 ≤ N ∧
           (∀ k, 1 ≤ k < N → is_Some (ch !! candidate k)) ∧
           ch !! candidate N = None ∧
           process_item move_fails false item files_moved (World (Some (Dir d)) log) =
             (World (Some (Dir (<[category := Dir (<[candidate N := File data]> ch)]>
                                  (delete item d))))
                    (log ++ [Info_moved item category (candidate N)]),
              Ret (S files_moved)) ∧
           (∀ name nd, ch !! name = Some nd →
                       <[candidate N := File data]> ch !! name = Some nd)) ∧
  (∀ (move_fails : string → bool) (listing : list string) (w : world record)
     (folder name : string) (nd : node),
      lookup_in (fs w) folder name = Some nd →
      lookup_in (fs (organize_downloads move_fails listing false w).1) folder name
        = Some nd).
Proof.
  split; [|apply live_run_keeps_entries].
  intros move_fails item files_moved log d ch data category candidate
         Hitem Hch Htaken Hmf.
  destruct (process_item_run move_fails false item files_moved
              (World (Some (Dir d)) log)) as (w' & n' & Hrun & Hstep).
  rewrite Hrun.
  inversion Hstep as [w0 n0 Hnf
                     | w0 n0 destination category' Hdry Hfile Hffn
                     | w0 n0 destination e category' Hdry Hfile Hffn Hmv
                     | w0 n0 destination d' data' ch' category' Hdry Hmf' Hfs Hitem'
                         Hch' Hffn Hfree];
    subst; try done.
  - unfold base_entries, Fs.is_file in Hnf. simpl in Hnf. by rewrite Hitem in Hnf.
  - unfold base_entries in Hffn, Hmv. simpl in Hffn, Hmv.
    pose proof (first_free_name_free _ _ _ _ _ Hffn Hch) as Hdst.
    rewrite (shutil_move_free _ _ _ _ _ _ _ Hitem Hch Hdst), Hmf in Hmv. done.
  - simpl in Hfs. injection Hfs as <-.
    assert (ch' = ch) as -> by (subst category category'; congruence).
    assert (data' = data) as -> by congruence.
    destruct Hffn as [_ [[_ Hno] | (N & HN & -> & _ & Hall)]].
    { apply path_exists_false with (ch := ch) in Hno; [|done].
      destruct Htaken. congruence. }
    exists N. split; [done|]. split; [|split; [done|split; [done|]]].
    + intros k Hk. specialize (Hall k Hk).
      apply path_exists_true in Hall as (ch2 & Hch2 & ?).
      assert (ch2 = ch) as -> by (subst category category'; congruence). done.
    + intros name nd Hn. rewrite lookup_insert_ne; [done|].
      intros <-. subst candidate. congruence.
Qed.

Lemma live_move_never_overwrites_witness :
  let documents : gmap string node := {["a.txt" := File "old"]} in
  let d : gmap string node :=
    <["a.txt" := File "new"]> {["Documents" := Dir documents]} in
  (∃ N, 1 ≤ N ∧ documents !! new_name "a" ".txt" N = None) ∧
  lookup_in (fs (organize_downloads (λ _, false) ["a.txt"; "Documents"] false
                   (World (Some (Dir d)) [])).1) "Documents" "a.txt"
    = Some (File "old").
Proof.
  intros documents d. split.
  - destruct (proj1 live_move_never_overwrites (λ _, false) "a.txt" 0 [] d
                documents "new")
      as (N & HN & _ & Hfree & _);
      [reflexivity | reflexivity | by eexists | reflexivity |].
    exists N. split; [exact HN | exact Hfree].
  - apply (proj2 live_move_never_overwrites). reflexivity.
Defined.

End claims_live.

(* ===================================================================== *)
(** ** Claims on the passes of one run and of two runs *)
(* ===================================================================== *)

Section claims_passes.
Import Pathlib Fs Eff Vibed Step Table Log.








End claims_passes.

(* ===================================================================== *)
(** ** Claims on two live runs in a row *)
(* ===================================================================== *)

Section claims_two_runs.
Import Pathlib Fs Eff Vibed Step Table Log.

(** C9: after a live run, every file it reports as moved is gone from
    the top level of the target and lies, with the contents it had,
    under the reported name in its category folder. A second live run
    on the resulting directory, whatever its listing and its failing
    moves, does not report any of these files as moved, and the file is
    still at the same place with the same contents afterwards. *)
Theorem second_run_leaves_moved_files (move_fails1 move_fails2 : string → bool)
    (listing1 listing2 : list string) (s : option node) (x c destination : string) :
  let w1 := (organize_downloads move_fails1 listing1 false (World s [])).1 in
  let w2 := (organize_downloads move_fails2 listing2 false (World (fs w1) [])).1 in
  Info_moved x c destination ∈ out w1 →
  base_entries w1 !! x = None ∧
  (x ∉ moved_names (out w2)) ∧
  ∃ data, base_entries (World s ([] : list record)) !! x = Some (File data) ∧
          lookup_in (fs w1) c destination = Some (File data) ∧
          lookup_in (fs w2) c destination = Some (File data).
Proof.
  intros w1 w2 Hin.
  assert (base_entries w1 !! x = None ∧
          ∃ data, base_entries (World s ([] : list record)) !! x = Some (File data) ∧
                  lookup_in (fs w1) c destination = Some (File data))
    as (Hgone & data & Hwas & Hnow).
  { subst w1.
    destruct (organize_downloads_live_effect move_fails1 listing1 (World s []))
      as [(wa & e & [Hout _] & Hrun) | (wa & wb & recs & Hadd & He & Hrun)];
      rewrite Hrun in Hin |- *; simpl in *.
    - rewrite Hout in Hin. by apply elem_of_nil in Hin.
    - apply elem_of_closed in Hin.
      destruct He as (_ & _ & _ & _ & _ & Hm & _).
      destruct (Hm _ _ _ Hin) as (_ & _ & Hg & data & Hw & Hn).
      split; [done|]. exists data. split; [|done].
      by apply (folders_added_files _ _ _ _ Hadd). }
  split; [done|]. split.
  - subst w2.
    destruct (organize_downloads_live_effect move_fails2 listing2 (World (fs w1) []))
      as [(wa & e & [Hout _] & ->) | (wa & wb & recs & Hadd & He & ->)]; simpl.
    + simpl in Hout. rewrite Hout. apply not_elem_of_nil.
    + rewrite moved_names_closed.
      intros (c' & destination' & Hin')%elem_of_moved_names.
      destruct He as (_ & _ & _ & _ & _ & Hm & _).
      destruct (Hm _ _ _ Hin') as (_ & _ & _ & data' & Hw & _).
      apply (folders_added_files _ _ _ _ Hadd) in Hw.
      unfold base_entries in Hw, Hgone. simpl in Hw. congruence.
  - exists data. split; [done|]. split; [done|].
    subst w2. by apply live_run_keeps_entries.
Qed.

Lemma second_run_leaves_moved_files_witness :
  let s := Some (Dir (<["a.pdf" := File "text"]> (∅ : gmap string node))) in
  let w1 := (organize_downloads (λ _, false) ["a.pdf"] false (World s [])).1 in
  let w2 := (organize_downloads (λ _, false) ["Documents"; "a.pdf"] false
               (World (fs w1) [])).1 in
  base_entries w1 !! "a.pdf" = None ∧
  ("a.pdf" ∉ moved_names (out w2)) ∧
  ∃ data, base_entries (World s ([] : list record)) !! "a.pdf" = Some (File data) ∧
          lookup_in (fs w1) "Documents" "a.pdf" = Some (File data) ∧
          lookup_in (fs w2) "Documents" "a.pdf" = Some (File data).
Proof.
  intros s w1 w2.
  apply (second_run_leaves_moved_files (λ _, false) (λ _, false) ["a.pdf"]
           ["Documents"; "a.pdf"] s "a.pdf" "Documents" "a.pdf").
  vm_compute. left.
Defined.

End claims_two_runs.

(* ===================================================================== *)
(** ** The planned program *)
(* ===================================================================== *)

Section planned_run.
Import Pathlib Fs Eff Log.
Import Planned.

Lemma String_eqb_decide (a b : string) : String.eqb a b = bool_decide (a = b).
Proof.
  destruct (String.eqb_spec a b) as [->|Hne].
  - by rewrite bool_decide_eq_true_2.
  - by rewrite bool_decide_eq_false_2.
Qed.

(** A file whose extension is not a key of the mapping is left alone. *)
Lemma planned_skips_unmapped (move_fails : string → bool) (name : string)
    (moved_files : list (string * list string)) (w : world line) :
  mapping_get folder_mapping (lower (suffix name)) = None →
  process_item move_fails name moved_files w = (w, Ret moved_files).
Proof.
  intros Hnone. unfold process_item, bind, Eff.is_file.
  destruct (Fs.is_file (base_entries w) name); [|done]. by rewrite Hnone.
Qed.

(** A file whose name is taken in its folder is left alone. *)
Lemma planned_skips_occupied (move_fails : string → bool) (name target_folder : string)
    (moved_files : list (string * list string)) (w : world line) :
  mapping_get folder_mapping (lower (suffix name)) = Some target_folder →
  Fs.path_exists (base_entries w) target_folder name = true →
  process_item move_fails name moved_files w = (w, Ret moved_files).
Proof.
  intros Hsome Hex. unfold process_item, bind, Eff.is_file, Eff.path_exists.
  destruct (Fs.is_file (base_entries w) name); [|done]. by rewrite Hsome, Hex.
Qed.

(** Every iteration returns; it prints nothing, or an error, or a move
    that it also files under the folder in [moved_files]. *)
Lemma planned_process_item_run (move_fails : string → bool) (name : string)
    (moved_files : list (string * list string)) (w : world line) :
  ∃ w' moved_files',
    process_item move_fails name moved_files w = (w', Ret moved_files') ∧
    ((out w' = out w ∧ moved_files' = moved_files) ∨
     (∃ e, out w' = out w ++ [Print_error name e] ∧ moved_files' = moved_files) ∨
     (∃ folder, out w' = out w ++ [Print_moved name folder] ∧
                moved_files' = append_moved moved_files folder name)).
Proof.
  unfold process_item, bind, Eff.is_file, Eff.path_exists.
  destruct (Fs.is_file (base_entries w) name); [|by eauto 6].
  destruct (mapping_get folder_mapping (lower (suffix name))) as [folder|];
    [|by eauto 6].
  destruct (Fs.path_exists (base_entries w) folder name); simpl; [by eauto 6|].
  unfold try_except, bind, Eff.shutil_move, emit.
  destruct (fs w) as [[?|d]|]; simpl; [by eauto 8 | | by eauto 8].
  destruct (Fs.shutil_move move_fails d name folder name); simpl; by eauto 8.
Qed.

Lemma files_of_append_moved (moved_files : list (string * list string))
    (folder name folder' : string) :
  files_of (append_moved moved_files folder name) folder' =
  if decide (folder = folder') then files_of moved_files folder' ++ [name]
  else files_of moved_files folder'.
Proof.
  induction moved_files as [|[f files] rest IH]; simpl.
  - rewrite String_eqb_decide. by destruct (decide (folder = folder')); 
      [rewrite bool_decide_eq_true_2 | rewrite bool_decide_eq_false_2].
  - rewrite !String_eqb_decide.
    destruct (decide (f = folder)) as [->|Hf].
    + rewrite bool_decide_eq_true_2 by done. simpl. rewrite String_eqb_decide.
      destruct (decide (folder = folder')) as [->|Hne].
      * by rewrite bool_decide_eq_true_2.
      * by rewrite bool_decide_eq_false_2.
    + rewrite bool_decide_eq_false_2 by done. simpl. rewrite String_eqb_decide.
      destruct (decide (f = folder')) as [->|Hne].
      * rewrite bool_decide_eq_true_2 by done. by rewrite decide_False by congruence.
      * rewrite bool_decide_eq_false_2 by done. apply IH.
Qed.

Lemma append_moved_keys (moved_files : list (string * list string))
    (folder name : string) :
  NoDup moved_files.*1 → NoDup (append_moved moved_files folder name).*1 ∧
  ∀ f, f ∈ (append_moved moved_files folder name).*1 → f = folder ∨ f ∈ moved_files.*1.
Proof.
  induction moved_files as [|[f files] rest IH]; simpl; intros Hnd.
  - split; [apply NoDup_singleton|]. intros f' Hin%list_elem_of_singleton. by left.
  - apply NoDup_cons in Hnd as [Hnotin Hnd]. rewrite String_eqb_decide.
    destruct (decide (f = folder)) as [->|Hf].
    + rewrite bool_decide_eq_true_2 by done. simpl. split; [by apply NoDup_cons|].
      intros f' Hin. by right.
    + rewrite bool_decide_eq_false_2 by done. simpl.
      destruct (IH Hnd) as [Hnd' Hkeys]. split.
      * apply NoDup_cons. split; [|done]. intros Hin.
        destruct (Hkeys _ Hin); [congruence | done].
      * intros f' [->|Hin]%elem_of_cons; [right; left|].
        destruct (Hkeys _ Hin); [by left | right; by right].
Qed.

Lemma printed_into_snoc (folder : string) (lines : list line) (l : line) :
  printed_into folder (lines ++ [l]) =
  printed_into folder lines ++
  match l with
  | Print_moved name f => if decide (f = folder) then [name] else []
  | _ => []
  end.
Proof.
  unfold printed_into, printed_moves. rewrite omap_app, filter_app, fmap_app.
  f_equal. destruct l; try done. simpl.
  rewrite filter_cons. simpl. by destruct (decide (folder0 = folder)).
Qed.

(** The loop returns, and keeps [moved_files] in step with the printed
    moves: its keys are distinct and each folder's list is the list of
    names printed as moved into that folder. *)
Lemma planned_for_each_item_run (move_fails : string → bool) (items : list string) :
  ∀ (moved_files : list (string * list string)) (w : world line),
    NoDup moved_files.*1 →
    (∀ folder, files_of moved_files folder = printed_into folder (out w)) →
    ∃ w' moved_files',
      for_each_item move_fails items moved_files w = (w', Ret moved_files') ∧
      NoDup moved_files'.*1 ∧
      (∀ folder, files_of moved_files' folder = printed_into folder (out w')).
Proof.
  induction items as [|name items IH]; intros moved_files w Hnd Hfiles; simpl.
  - by exists w, moved_files.
  - destruct (planned_process_item_run move_fails name moved_files w)
      as (w1 & moved1 & Hrun & Hcase).
    unfold bind. rewrite Hrun. apply IH.
    + destruct Hcase as [[_ ->] | [(e & _ & ->) | (folder & _ & ->)]]; try done.
      by apply append_moved_keys.
    + intros folder'.
      destruct Hcase as [[-> ->] | [(e & -> & ->) | (folder & -> & ->)]].
      * done.
      * rewrite printed_into_snoc, app_nil_r. apply Hfiles.
      * rewrite printed_into_snoc, files_of_append_moved, Hfiles.
        destruct (decide (folder = folder')); [done | by rewrite app_nil_r].
Qed.

Lemma print_counts_run (moved_files : list (string * list string)) :
  ∀ (total_moved : nat) (w : world line),
    print_counts moved_files total_moved w =
    (World (fs w) (out w ++ count_lines moved_files),
     Ret (total_moved + sum_list (length <$> moved_files.*2))).
Proof.
  induction moved_files as [|[folder files] rest IH]; intros total_moved w; simpl.
  - unfold ret. rewrite app_nil_r, Nat.add_0_r. by destruct w.
  - unfold bind, emit. simpl. rewrite IH. simpl.
    rewrite <- app_assoc. simpl. f_equal. f_equal. symmetry. apply Nat.add_assoc.
Qed.

Lemma planned_mkdir_each_out (names : list string) :
  ∀ (w w' : world line) o, Planned.mkdir_each names w = (w', o) → out w' = out w.
Proof.
  induction names as [|name names IH]; intros w w' o; simpl.
  - by intros [= <- _].
  - unfold bind, Eff.mkdir_exist_ok.
    destruct (Fs.mkdir_exist_ok (fs w) name) as [e|s'].
    + by intros [= <- _].
    + intros Hrun. by apply IH in Hrun.
Qed.

End planned_run.

(* ===================================================================== *)
(** ** Claims on the summary *)
(* ===================================================================== *)

Section claims_summary.
Import Pathlib Fs Eff Log.

(** C6 fails on the vibed program. Its summary is one number: the live
    runs on a directory with only [a.pdf] and on one with only [a.jpg]
    close with the same summary although one moves a file into
    [Documents] and the other does not; and the dry run on the first
    closes with 0 although it announces one move. *)
Lemma vibed_summary_is_one_number :
  let run name dry_run :=
    out (Vibed.organize_downloads (λ _, false) [name] dry_run
           (World (Some (Dir {[name := File "contents"]})) [])).1 in
  summary (run "a.pdf" false) = Some 1 ∧
  summary (run "a.jpg" false) = Some 1 ∧
  moved_into "Documents" (run "a.pdf" false) = 1 ∧
  moved_into "Documents" (run "a.jpg" false) = 0 ∧
  summary (run "a.pdf" true) = Some 0 ∧
  planned_destinations (run "a.pdf" true) = [("Documents", "a.pdf")].
Proof. vm_compute. repeat split. Qed.

(** C6, as the code has it: a live run of the vibed program that
    returns closes its log with the total number of files it reports as
    moved, and nothing per category. A run of the planned program that
    reaches its summary prints, after the moves, one count per folder
    and the total: the folders are distinct, each count is the number of
    files printed as moved into that folder, and the total is the sum of
    the counts. *)
Theorem run_summary_counts (move_fails : string → bool) (listing : list string)
    (s : option node) :
  (∀ w' n,
      Vibed.organize_downloads move_fails listing false (World s []) = (w', Ret n) →
      summary (out w') = Some n ∧ n = length (moved_names (out w'))) ∧
  (∀ w' moved_files total_moved,
      Planned.organize_downloads move_fails listing (World s [])
        = (w', Ret (Some (moved_files, total_moved))) →
      ∃ lines,
        out w' = lines ++ Planned.Print_summary :: count_lines moved_files
                       ++ [Planned.Print_total total_moved] ∧
        NoDup moved_files.*1 ∧
        (∀ folder, files_of moved_files folder = printed_into folder lines) ∧
        total_moved = sum_list (length <$> moved_files.*2)).
Proof.
  split.
  - intros w' n Hrun.
    by apply (live_run_count move_fails listing s).
  - intros w' moved_files total_moved.
    unfold Planned.organize_downloads, bind at 1, target_exists. cbn [fs].
    destruct s as [nd|].
    2:{ rewrite bool_decide_eq_false_2 by (by intros [? [=]]). by intros [=]. }
    rewrite bool_decide_eq_true_2 by eauto. cbn [negb]. unfold bind at 1.
    destruct (Planned.mkdir_each Planned.folder_mapping.*2 (World (Some nd) []))
      as [w1 [[]|e|]] eqn:Hmk; [|by intros [=]..].
    apply planned_mkdir_each_out in Hmk. simpl in Hmk.
    unfold bind at 1, iterdir.
    destruct (fs w1) as [[?|d]|] eqn:Hfs1; [by intros [=] | | by intros [=]].
    destruct (planned_for_each_item_run move_fails listing [] w1)
      as (w2 & moved & Hloop & Hnd & Hfiles).
    { apply NoDup_nil_2. }
    { intros folder. by rewrite Hmk. }
    unfold bind at 1. rewrite Hloop. unfold bind, emit. simpl.
    rewrite print_counts_run. simpl. intros [= <- <- <-].
    exists (out w2). simpl. rewrite <- !app_assoc. simpl. done.
Qed.

Lemma run_summary_counts_witness :
  let s := Some (Dir (<["a.pdf" := File "text"]> (∅ : gmap string node))) in
  let wv := (Vibed.organize_downloads (λ _, false) ["a.pdf"] false (World s [])).1 in
  let wp := (Planned.organize_downloads (λ _, false) ["a.pdf"] (World s [])).1 in
  (summary (out wv) = Some 1 ∧ 1 = length (moved_names (out wv))) ∧
  ∃ lines,
    out wp = lines ++ Planned.Print_summary :: count_lines [("Documents", ["a.pdf"])]
                   ++ [Planned.Print_total 1] ∧
    NoDup [("Documents", ["a.pdf"])].*1 ∧
    (∀ folder, files_of [("Documents", ["a.pdf"])] folder = printed_into folder lines) ∧
    1 = sum_list (length <$> [("Documents", ["a.pdf"])].*2).
Proof.
  intros s wv wp. split.
  - apply (proj1 (run_summary_counts (λ _, false) ["a.pdf"] s)).
    vm_compute. reflexivity.
  - apply (proj2 (run_summary_counts (λ _, false) ["a.pdf"] s)).
    vm_compute. reflexivity.
Defined.

End claims_summary.

(* ===================================================================== *)
(** ** Further properties: finding the folder and the entry point *)
(* ===================================================================== *)

Section more_main.
Import Pathlib Fs Eff Vibed Step Table Log.

(** [get_downloads_folder] prefers [Downloads]: it returns that name
    whenever the home directory has such an entry, returns [downloads]
    exactly when only that one exists, and raises exactly when both are
    missing; a returned name always exists in the home directory. *)
Theorem get_downloads_folder_prefers_capital (home : gmap string node) :
  (is_Some (home !! "Downloads") → get_downloads_folder home = inr "Downloads") ∧
  (get_downloads_folder home = inr "downloads" ↔
   home !! "Downloads" = None ∧ is_Some (home !! "downloads")) ∧
  (get_downloads_folder home = inl FileNotFoundError ↔
   home !! "Downloads" = None ∧ home !! "downloads" = None) ∧
  (∀ folder, get_downloads_folder home = inr folder → is_Some (home !! folder)) ∧
  (∀ e, get_downloads_folder home = inl e → e = FileNotFoundError).
Proof.
  unfold get_downloads_folder.
  destruct (home !! "Downloads") as [n1|] eqn:E1, (home !! "downloads") as [n2|] eqn:E2.
  all: rewrite ?(bool_decide_eq_true_2 (is_Some (Some _))) by eauto.
  all: rewrite ?(bool_decide_eq_false_2 (is_Some None)) by (by intros [? [=]]).
  all: repeat split; try done; try (by intros [[=] _]); try (by intros [_ [=]]);
    try (by intros [? [=]]); try (by intros [_ [? [=]]]); try (by intros [[? [=]] _]).
  all: try (intros folder [= <-]; rewrite ?E1, ?E2; by eauto).
  all: try (by intros e [= <-]).
Qed.

Lemma get_downloads_folder_prefers_capital_witness :
  get_downloads_folder (<["Downloads" := Dir ∅]> {["downloads" := Dir ∅]})
    = inr "Downloads" ∧
  is_Some ((<["Desktop" := Dir ∅]> {["downloads" := Dir ∅]} : gmap string node)
             !! "downloads").
Proof.
  split.
  - apply (proj1 (get_downloads_folder_prefers_capital _)). by eexists.
  - apply (proj1 (proj2 (proj2 (proj2 (get_downloads_folder_prefers_capital
             (<["Desktop" := Dir ∅]> {["downloads" := Dir ∅]})))))).
    reflexivity.
Defined.




End more_main.

(* ===================================================================== *)
(** ** Further properties: creating the category folders *)
(* ===================================================================== *)

Section more_folders.
Import Pathlib Fs Eff Vibed Step Table Log.

(** [mkdir_each] on a target that is a directory: it returns exactly when
    none of the names is a regular file there, and then every name is a
    directory, nothing else has changed and each new entry is an empty
    directory; otherwise it raises [FileExistsError]. *)
Lemma mkdir_each_dir (names : list string) :
  ∀ (d : gmap string node) (log : list record),
    (Forall (λ c, Fs.is_file d c = false) names →
     ∃ d', mkdir_each names (World (Some (Dir d)) log)
             = (World (Some (Dir d')) log, Ret tt) ∧
           (∀ c, c ∈ names → ∃ ch, d' !! c = Some (Dir ch)) ∧
           (∀ x, d' !! x = d !! x ∨
                 (d !! x = None ∧ x ∈ names ∧ d' !! x = Some (Dir ∅)))) ∧
    (Exists (λ c, Fs.is_file d c = true) names →
     ∃ w', mkdir_each names (World (Some (Dir d)) log) = (w', Raise FileExistsError) ∧
           out w' = log).
Proof.
  induction names as [|c names IH]; intros d log; simpl.
  - split.
    + intros _. exists d. split; [done|]. split; [|by left].
      intros c Hc. by apply elem_of_nil in Hc.
    + intros Hex. by apply Exists_nil in Hex.
  - unfold bind, Eff.mkdir_exist_ok, Fs.mkdir_exist_ok. cbn [fs out].
    destruct (d !! c) as [[data|ch]|] eqn:Hc.
    + split.
      * intros Hall. apply Forall_cons in Hall as [Hno _].
        unfold Fs.is_file in Hno. by rewrite Hc in Hno.
      * intros _. by eexists.
    + destruct (IH d log) as [IHok IHbad]. split.
      * intros Hall. apply Forall_cons in Hall as [_ Hall].
        destruct (IHok Hall) as (d' & Hrun & Hdirs & Hsame).
        exists d'. split; [done|]. split.
        -- intros c' [->|Hin]%elem_of_cons; [|by apply Hdirs].
           destruct (Hsame c) as [-> | [Hnone _]]; [by eauto | congruence].
        -- intros x. destruct (Hsame x) as [? | (? & ? & ?)]; [by left|].
           right. repeat split; [done | by right | done].
      * intros Hex. apply Exists_cons in Hex as [Hd | Hex]; [|by apply IHbad].
        unfold Fs.is_file in Hd. by rewrite Hc in Hd.
    + assert (∀ c', Fs.is_file (<[c := Dir ∅]> d) c' = Fs.is_file d c') as Hfile.
      { intros c'. unfold Fs.is_file. destruct (decide (c = c')) as [<-|Hne].
        - by rewrite lookup_insert_eq, Hc.
        - by rewrite lookup_insert_ne. }
      destruct (IH (<[c := Dir ∅]> d) log) as [IHok IHbad]. split.
      * intros Hall. apply Forall_cons in Hall as [_ Hall].
        destruct IHok as (d' & Hrun & Hdirs & Hsame).
        { eapply Forall_impl; [exact Hall|]. intros c' Hc'. simpl.
          by rewrite Hfile. }
        exists d'. split; [done|]. split.
        -- intros c' [->|Hin]%elem_of_cons; [|by apply Hdirs].
           destruct (Hsame c) as [-> | [Hnone _]];
             rewrite ?lookup_insert_eq in *; [by eauto | congruence].
        -- intros x. destruct (decide (c = x)) as [<-|Hne].
           ++ right. split; [done|]. split; [by left|].
              destruct (Hsame c) as [-> | [Hnone _]];
                rewrite ?lookup_insert_eq in *; [done | congruence].
           ++ destruct (Hsame x) as [Heq | (Hn & Hin & Hnew)];
                rewrite lookup_insert_ne in * by done; [by left|].
              right. repeat split; [done | by right | done].
      * intros Hex. apply Exists_cons in Hex as [Hd | Hex].
        { unfold Fs.is_file in Hd. by rewrite Hc in Hd. }
        apply IHbad. eapply Exists_impl; [exact Hex|].
        intros c' Hd. simpl. by rewrite Hfile.
Qed.

Lemma mkdir_each_app (names1 names2 : list string) (w : world record) :
  mkdir_each (names1 ++ names2) w =
  match mkdir_each names1 w with
  | (w1, Ret _) => mkdir_each names2 w1
  | r => r
  end.
Proof.
  revert w. induction names1 as [|c names1 IH]; intros w; simpl; [done|].
  unfold bind. destruct (Eff.mkdir_exist_ok c w) as [w1 [[]|e|]]; [apply IH | done..].
Qed.

(** [create_category_folders] makes the folders of the keys, in order, and
    then [Others]. *)
Lemma create_category_folders_each (categories : list (string * gset string))
    (w : world record) :
  create_category_folders categories w = mkdir_each (categories.*1 ++ ["Others"]) w.
Proof.
  rewrite mkdir_each_app. unfold create_category_folders, bind.
  destruct (mkdir_each categories.*1 w) as [w1 [[]|e|]]; [|done..].
  simpl. unfold bind. by destruct (Eff.mkdir_exist_ok "Others" w1) as [w2 [[]|e|]].
Qed.

(** Folder creation: when it returns, every category of the table and
    [Others] is a directory under the target, every entry that was there
    is unchanged, every new entry is an empty directory with one of these
    names, nothing is logged, and creating the folders again changes
    nothing. It returns exactly when the target is a directory in which
    none of these names is a regular file. *)
Theorem create_category_folders_creates_all (categories : list (string * gset string))
    (w : world record) :
  let names := categories.*1 ++ ["Others"] in
  (∀ w', create_category_folders categories w = (w', Ret tt) →
         out w' = out w ∧
         (∀ c, c ∈ names → ∃ ch, base_entries w' !! c = Some (Dir ch)) ∧
         (∀ x, base_entries w' !! x = base_entries w !! x ∨
               (base_entries w !! x = None ∧ x ∈ names ∧
                base_entries w' !! x = Some (Dir ∅))) ∧
         create_category_folders categories w' = (w', Ret tt)) ∧
  ((∃ w', create_category_folders categories w = (w', Ret tt)) ↔
   (∃ d, fs w = Some (Dir d) ∧ ∀ c, c ∈ names → Fs.is_file d c = false)).
Proof.
  intros names. rewrite create_category_folders_each. fold names.
  assert (names ≠ []) as Hne by (subst names; by destruct (categories.*1)).
  destruct w as [[[data|d]|] log]; cbn [fs out base_entries].
  - destruct names as [|c names']; [done|]. simpl. split.
    + by intros w' [=].
    + split; [by intros [w' [=]] | by intros (d & [=] & _)].
  - destruct (mkdir_each_dir names d log) as [Hok Hbad].
    destruct (decide (Forall (λ c, Fs.is_file d c = false) names))
      as [Hall | Hnot].
    + destruct (Hok Hall) as (d' & Hrun & Hdirs & Hsame). split.
      * intros w'. rewrite Hrun. intros [= <-]. cbn [fs out base_entries].
        split; [done|]. split; [done|]. split; [done|].
        rewrite create_category_folders_each. fold names.
        destruct (mkdir_each_dir names d' log) as [Hok' _].
        destruct Hok' as (d'' & Hrun' & _ & Hsame').
        { apply Forall_forall. intros c Hc. unfold Fs.is_file.
          by destruct (Hdirs c Hc) as [ch ->]. }
        rewrite Hrun'. enough (d'' = d') as -> by done. apply map_eq. intros x.
        destruct (Hsame' x) as [-> | (Hnone & Hin & _)]; [done|].
        destruct (Hdirs x Hin) as [ch Hch]. congruence.
      * split; [|by eauto]. intros _. exists d. split; [done|].
        intros c Hc. rewrite Forall_forall in Hall. by apply Hall.
    + apply not_Forall_Exists in Hnot; [|apply _].
      assert (Exists (λ c, Fs.is_file d c = true) names) as Hex.
      { eapply Exists_impl; [exact Hnot|]. intros c Hc. simpl in Hc.
        by apply not_false_is_true. }
      destruct (Hbad Hex) as (w' & Hrun & _). rewrite Hrun. split.
      * by intros w'' [=].
      * split; [by intros [w'' [=]]|]. intros (d0 & [= <-] & Hno).
        apply Exists_exists in Hex as (c & Hc & Hd). rewrite (Hno c Hc) in Hd. done.
  - destruct names as [|c names']; [done|]. simpl. split.
    + by intros w' [=].
    + split; [by intros [w' [=]] | by intros (d & [=] & _)].
Qed.

Lemma create_category_folders_creates_all_witness :
  let w : world record := World (Some (Dir {["a.txt" := File "text"]})) [] in
  let w' := (create_category_folders get_file_categories w).1 in
  (out w' = out w ∧ create_category_folders get_file_categories w' = (w', Ret tt)) ∧
  ∃ d, fs w = Some (Dir d) ∧
       ∀ c, c ∈ get_file_categories.*1 ++ ["Others"] → Fs.is_file d c = false.
Proof.
  intros w w'. split.
  - destruct (proj1 (create_category_folders_creates_all get_file_categories w) w')
      as (Hout & _ & _ & Hagain); [vm_compute; reflexivity|].
    split; [exact Hout | exact Hagain].
  - apply (proj1 (proj2 (create_category_folders_creates_all get_file_categories w))).
    exists w'. vm_compute. reflexivity.
Defined.



End more_folders.

(* ===================================================================== *)
(** ** Further properties: which files a run announces, moves and leaves *)
(* ===================================================================== *)

Section more_passes.
Import Pathlib Fs Eff Vibed Step Table Log.











End more_passes.

(* ===================================================================== *)
(** ** Further properties: candidate names and the two tables *)
(* ===================================================================== *)

Section more_names.
Import Pathlib Fs Eff Vibed Step Table Log.

Lemma substring_all (s : string) : String.substring 0 (String.length s) s = s.
Proof. induction s as [|c s IH]; [done|]. cbn. by rewrite IH. Qed.

Lemma substring_split (s : string) :
  ∀ i, i ≤ String.length s →
       String.substring 0 i s +:+ String.substring i (String.length s - i) s = s.
Proof.
  induction s as [|c s IH]; intros [|i] Hi.
  - done.
  - cbn in Hi. lia.
  - change (String.substring 0 (String.length (String c s)) (String c s) = String c s).
    apply substring_all.
  - change (String c (String.substring 0 i s +:+
                      String.substring i (String.length s - i) s) = String c s).
    f_equal. apply IH. cbn in Hi. lia.
Qed.

Lemma string_app_nil_r (s : string) : s +:+ "" = s.
Proof.
  induction s as [|c s IH]; [done|].
  change (String c (s +:+ "") = String c s). by rewrite IH.
Qed.

Lemma rfind_lt (c : ascii) (s : string) (i : nat) :
  rfind c s = Some i → i < String.length s.
Proof.
  revert i. induction s as [|a s IH]; intros i; simpl; [done|].
  destruct (rfind c s) as [j|].
  - intros [= <-]. specialize (IH j eq_refl). lia.
  - destruct (Ascii.eqb a c); [|done]. intros [= <-]. lia.
Qed.

(** A name is its stem followed by its suffix. *)
Lemma stem_suffix (name : string) : stem name +:+ suffix name = name.
Proof.
  unfold stem, suffix, split_at_dot.
  destruct (rfind "." name) as [i|] eqn:Hi.
  - destruct ((0 <? i) && (i <? String.length name - 1)).
    + apply substring_split. apply rfind_lt in Hi. lia.
    + apply string_app_nil_r.
  - apply string_app_nil_r.
Qed.

(** The names the collision loop tries for a file are all different from
    each other and from the file's own name, and each is the own name
    with [_N] put in before the extension. *)
Theorem candidate_names_are_new (item : string) (n m : nat) :
  new_name (stem item) (suffix item) n ≠ item ∧
  (new_name (stem item) (suffix item) n = new_name (stem item) (suffix item) m → n = m) ∧
  String.length (new_name (stem item) (suffix item) n) =
    String.length item + 1 + String.length (str n).
Proof.
  assert (String.length (new_name (stem item) (suffix item) n) =
          String.length item + 1 + String.length (str n)) as Hlen.
  { unfold new_name. rewrite !string_length_app. simpl.
    rewrite <- (stem_suffix item) at 3. rewrite string_length_app. lia. }
  split; [|split; [apply new_name_inj | done]].
  intros Heq. rewrite Heq in Hlen. lia.
Qed.

Lemma candidate_names_are_new_witness :
  new_name (stem "report.final.pdf") (suffix "report.final.pdf") 2
    = "report.final_2.pdf" ∧
  (new_name (stem "a.txt") (suffix "a.txt") 3 = new_name (stem "a.txt") (suffix "a.txt") 3
   → 3 = 3).
Proof.
  split; [reflexivity|].
  apply (proj1 (proj2 (candidate_names_are_new "a.txt" 3 3))).
Defined.

(** Every extension the planned mapping knows is sent to the same folder
    by the vibed table: a file the planned program moves to a folder is a
    file [categorize_file] puts into the category of that name. *)
Theorem planned_mapping_agrees_with_table (name folder : string) :
  Planned.mapping_get Planned.folder_mapping (lower (suffix name)) = Some folder →
  categorize_file name get_file_categories = folder.
Proof.
  unfold categorize_file. generalize (lower (suffix name)) as ext. intros ext.
  unfold Planned.folder_mapping. cbn [Planned.mapping_get].
  destruct (String.eqb_spec ".pdf" ext) as [<-|_]; [by intros [= <-]|].
  destruct (String.eqb_spec ".jpg" ext) as [<-|_]; [by intros [= <-]|].
  destruct (String.eqb_spec ".jpeg" ext) as [<-|_]; [by intros [= <-]|].
  destruct (String.eqb_spec ".mp4" ext) as [<-|_]; [by intros [= <-]|].
  destruct (String.eqb_spec ".zip" ext) as [<-|_]; [by intros [= <-]|].
  done.
Qed.

Lemma planned_mapping_agrees_with_table_witness :
  categorize_file "Scan.JPEG" get_file_categories = "Images".
Proof.
  apply (planned_mapping_agrees_with_table "Scan.JPEG" "Images"). reflexivity.
Defined.

End more_names.

(* ===================================================================== *)
(** ** Further properties: what the planned program does to the directory *)
(* ===================================================================== *)

Section more_planned.
Import Pathlib Fs Eff Log PlannedStep.
Import Planned.

Lemma planned_effect_refl (w : world line) : planned_effect w w [].
Proof.
  unfold planned_effect. rewrite app_nil_r.
  split; [done|]. split; [done|]. split; [done|]. split; [done|]. split; [done|].
  intros x folder Hin. by apply elem_of_nil in Hin.
Qed.

Lemma planned_effect_trans (w w1 w2 : world line) (lines1 lines2 : list line) :
  planned_effect w w1 lines1 → planned_effect w1 w2 lines2 →
  planned_effect w w2 (lines1 ++ lines2).
Proof.
  intros (Ho1 & Hk1 & Hs1 & Hf1 & Ha1 & Hm1) (Ho2 & Hk2 & Hs2 & Hf2 & Ha2 & Hm2).
  unfold planned_effect. split; [by rewrite Ho2, Ho1, app_assoc|].
  split; [by eauto|]. split; [|split; [by eauto|split; [by eauto|]]].
  - intros x data Hx Hno. apply Hs2; [by apply Hs1|].
    destruct Hno as [Hnone | (folder & Hsome & [nd Hnd])]; [by left|].
    right. exists folder. split; [done|]. exists nd. by apply Hk1.
  - intros x folder [Hin | Hin]%elem_of_app.
    + destruct (Hm1 _ _ Hin) as (Hmap & Hfree & Hgone & data & Hwas & Hnow).
      repeat split; [done | done | by apply Ha2 |]. exists data. split; [done|].
      by apply Hk2.
    + destruct (Hm2 _ _ Hin) as (Hmap & Hfree & Hgone & data & Hwas & Hnow).
      repeat split; [done | | done |].
      * destruct (lookup_in (fs w) folder x) as [nd|] eqn:E; [|done].
        apply Hk1 in E. congruence.
      * exists data. split; [by apply Hf1 | done].
Qed.

(** One iteration of the planned loop has this effect. *)
Lemma planned_process_item_effect (move_fails : string → bool) (name : string)
    (moved_files : list (string * list string)) (w : world line) :
  ∃ w' moved_files' lines,
    process_item move_fails name moved_files w = (w', Ret moved_files') ∧
    planned_effect w w' lines.
Proof.
  unfold process_item, bind at 1, Eff.is_file.
  destruct (Fs.is_file (base_entries w) name) eqn:Hfile.
  2:{ exists w, moved_files, []. split; [done | apply planned_effect_refl]. }
  destruct (mapping_get folder_mapping (lower (suffix name))) as [folder|] eqn:Hmap.
  2:{ exists w, moved_files, []. split; [done | apply planned_effect_refl]. }
  unfold bind at 1, Eff.path_exists.
  destruct (Fs.path_exists (base_entries w) folder name) eqn:Hex; cbn [negb].
  { exists w, moved_files, []. split; [done | apply planned_effect_refl]. }
  unfold base_entries, Fs.is_file in Hfile. unfold base_entries in Hex.
  destruct (fs w) as [[?|d]|] eqn:Hfs; [by rewrite lookup_empty in Hfile | |
                                         by rewrite lookup_empty in Hfile].
  destruct (d !! name) as [[data|?]|] eqn:Hname; try done.
  unfold try_except, bind, Eff.shutil_move, emit. rewrite Hfs.
  destruct (folder_entries d folder) as [ch|] eqn:Hch.
  2:{ unfold Fs.shutil_move. rewrite Hname, Hch.
      destruct (move_fails name); cbn.
      all: eexists _, moved_files, [_]; split; [reflexivity|].
      all: unfold planned_effect; cbn [fs out]; unfold base_entries; cbn [fs];
        rewrite Hfs.
      all: split; [done|]; split; [done|]; split; [done|]; split; [done|];
        split; [done|].
      all: intros x f Hin; by apply list_elem_of_singleton in Hin. }
  assert (ch !! name = None) as Hfree by (by eapply path_exists_false).
  assert (d !! folder = Some (Dir ch)) as Hcat.
  { unfold folder_entries in Hch.
    by destruct (d !! folder) as [[?|?]|]; simplify_eq. }
  assert (name ≠ folder) as Hnf by (intros Heq; rewrite <- Heq in Hcat; congruence).
  rewrite (shutil_move_free _ _ _ _ _ _ _ Hname Hch Hfree).
  destruct (move_fails name); cbn.
  { eexists _, moved_files, [_]. split; [reflexivity|].
    unfold planned_effect. cbn [fs out]. unfold base_entries. cbn [fs]. rewrite Hfs.
    split; [done|]. split; [done|]. split; [done|]. split; [done|]. split; [done|].
    intros x f Hin. by apply list_elem_of_singleton in Hin. }
  eexists _, _, [Print_moved name folder]. split; [reflexivity|].
  unfold planned_effect. cbn [fs out]. unfold base_entries. cbn [fs]. rewrite Hfs.
  split; [done|]. split; [|split; [|split; [|split]]].
  - intros f n nd Hl. rewrite (moved_lookup_in _ _ _ _ _ _ _ _ Hname Hch).
    case_decide as Hf; [subst f|done].
    unfold lookup_in in Hl. rewrite Hch in Hl.
    rewrite lookup_insert_ne; [done|]. intros <-. congruence.
  - intros x data' Hx Hno.
    destruct (decide (x = name)) as [->|Hxn].
    { destruct Hno as [Hnone | (f & Hsome & [nd Hnd])]; [congruence|].
      assert (f = folder) as -> by congruence.
      unfold lookup_in in Hnd. rewrite Hch in Hnd. congruence. }
    rewrite lookup_insert_ne by (intros <-; congruence).
    by rewrite lookup_delete_ne.
  - intros x data' Hx.
    destruct (decide (folder = x)) as [<-|Hxc]; [by rewrite lookup_insert_eq in Hx|].
    rewrite lookup_insert_ne in Hx by done.
    destruct (decide (name = x)) as [<-|Hxi]; [by rewrite lookup_delete_eq in Hx|].
    by rewrite lookup_delete_ne in Hx.
  - intros x Hx. rewrite lookup_insert_ne by congruence.
    destruct (decide (name = x)) as [<-|Hxi]; [by rewrite lookup_delete_eq|].
    by rewrite lookup_delete_ne.
  - intros x f [= -> ->]%list_elem_of_singleton.
    split; [done|]. split; [|split].
    + unfold lookup_in. by rewrite Hch.
    + rewrite lookup_insert_ne by done. by rewrite lookup_delete_eq.
    + exists data. split; [done|].
      rewrite (moved_lookup_in _ _ _ _ _ _ _ _ Hname Hch).
      rewrite decide_True by done. by rewrite lookup_insert_eq.
Qed.

Lemma planned_for_each_item_effect (move_fails : string → bool) (items : list string) :
  ∀ (moved_files : list (string * list string)) (w : world line),
  ∃ w' moved_files' lines,
    for_each_item move_fails items moved_files w = (w', Ret moved_files') ∧
    planned_effect w w' lines.
Proof.
  induction items as [|name items IH]; intros moved_files w; simpl.
  - exists w, moved_files, []. split; [done | apply planned_effect_refl].
  - destruct (planned_process_item_effect move_fails name moved_files w)
      as (w1 & moved1 & lines1 & Hrun & He1).
    destruct (IH moved1 w1) as (w2 & moved2 & lines2 & Hloop & He2).
    exists w2, moved2, (lines1 ++ lines2). unfold bind. rewrite Hrun.
    split; [done | by eapply planned_effect_trans].
Qed.

(** The folder creation of the planned program: whether it returns or
    raises, it keeps what is there and adds only empty directories. *)
Lemma planned_mkdir_each_fs (names : list string) :
  ∀ (w w1 : world line) o,
    Planned.mkdir_each names w = (w1, o) →
    match fs w with
    | Some (Dir d) =>
        ∃ d1, fs w1 = Some (Dir d1) ∧
              ∀ x, d1 !! x = d !! x ∨ (d !! x = None ∧ d1 !! x = Some (Dir ∅))
    | s => fs w1 = s
    end.
Proof.
  induction names as [|name names IH]; intros w w1 o; simpl.
  - intros [= <- _]. destruct (fs w) as [[?|d]|]; try done. exists d. split; [done|].
    by left.
  - unfold bind, Eff.mkdir_exist_ok, Fs.mkdir_exist_ok.
    destruct (fs w) as [[data|d]|] eqn:Hfs.
    + intros [= <- _]. done.
    + destruct (d !! name) as [[?|?]|] eqn:Hn.
      * intros [= <- _]. rewrite Hfs. exists d. split; [done|]. by left.
      * intros Hrun. apply IH in Hrun. cbn [fs] in Hrun. exact Hrun.
      * intros Hrun. apply IH in Hrun. cbn [fs] in Hrun.
        destruct Hrun as (d1 & Hfs1 & Hsame). exists d1. split; [done|].
        intros x. destruct (decide (name = x)) as [<-|Hne].
        -- right. split; [done|].
           destruct (Hsame name) as [H | [H _]]; rewrite lookup_insert_eq in H;
             congruence.
        -- destruct (Hsame x) as [H | [H1 H2]]; rewrite lookup_insert_ne in * by done;
             [by left | by right].
    + intros [= <- _]. done.
Qed.

(** A run of the planned program on a directory never overwrites and
    never loses a file, however it ends: every entry of every folder is
    kept; a regular file whose extension is not in the mapping, or whose
    name is taken in its folder, stays where it is; a regular file at the
    top level afterwards was there before with the same contents; and a
    file printed as moved has left the top level and lies, with its
    contents and under its own name, which was free, in the folder of its
    extension. *)
Theorem planned_run_effect (move_fails : string → bool) (listing : list string)
    (d : gmap string node) :
  let w' := (Planned.organize_downloads move_fails listing (World (Some (Dir d)) [])).1 in
  (∀ folder name nd,
      lookup_in (Some (Dir d)) folder name = Some nd →
      lookup_in (fs w') folder name = Some nd) ∧
  (∀ x data,
      d !! x = Some (File data) → no_place (Some (Dir d)) x →
      base_entries w' !! x = Some (File data)) ∧
  (∀ x data, base_entries w' !! x = Some (File data) → d !! x = Some (File data)) ∧
  (∀ x folder,
      Print_moved x folder ∈ out w' →
      mapping_get folder_mapping (lower (suffix x)) = Some folder ∧
      lookup_in (Some (Dir d)) folder x = None ∧
      base_entries w' !! x = None ∧
      ∃ data, d !! x = Some (File data) ∧
              lookup_in (fs w') folder x = Some (File data)).
Proof.
  intros w'. set (w := World (Some (Dir d)) ([] : list line)) in *.
  destruct (Planned.mkdir_each folder_mapping.*2 w) as [w1 o1] eqn:Hmk.
  pose proof (planned_mkdir_each_out _ _ _ _ Hmk) as Hout1.
  pose proof (planned_mkdir_each_fs _ _ _ _ Hmk) as Hfs1.
  cbn [fs out w] in Hout1, Hfs1. destruct Hfs1 as (d1 & Hfs1 & Hsame).
  assert (∃ w2 lines wfin o,
             Planned.organize_downloads move_fails listing w = (wfin, o) ∧
             fs wfin = fs w2 ∧ planned_effect w1 w2 lines ∧
             ∀ x f, Print_moved x f ∈ out wfin → Print_moved x f ∈ lines)
    as (w2 & lines & wfin & o & Hrun & Hfs' & He & Hlines).
  { unfold Planned.organize_downloads, bind, target_exists, iterdir, emit.
    cbn [fs w]. rewrite bool_decide_eq_true_2 by eauto. cbn [negb].
    fold w. rewrite Hmk.
    destruct o1 as [[]|e|].
    - rewrite Hfs1.
      destruct (planned_for_each_item_effect move_fails listing [] w1)
        as (w2 & moved & lines & Hloop & He).
      rewrite Hloop. cbn [fs out]. rewrite print_counts_run. cbn [fs out].
      exists w2, lines. eexists _, _. split; [reflexivity|]. cbn [fs out].
      split; [done|]. split; [done|].
      destruct He as (Hout2 & _). rewrite Hout2, Hout1. cbn [app].
      intros x f Hin. rewrite !elem_of_app in Hin.
      destruct Hin as [[[Hin | Hin%list_elem_of_singleton] | Hin] |
                       Hin%list_elem_of_singleton]; try done.
      unfold count_lines in Hin. apply list_elem_of_fmap in Hin as (p & Hp & _). done.
    - exists w1, [], w1, (Raise e). split; [done|]. split; [done|].
      split; [apply planned_effect_refl|].
      rewrite Hout1. intros x f Hin. by apply elem_of_nil in Hin.
    - exists w1, [], w1, Diverge. split; [done|]. split; [done|].
      split; [apply planned_effect_refl|].
      rewrite Hout1. intros x f Hin. by apply elem_of_nil in Hin. }
  subst w'. rewrite Hrun. cbn [fst].
  destruct He as (_ & Hkept & Hstay & Hfiles & _ & Hmoved).
  assert (base_entries wfin = base_entries w2) as Hbase
    by (unfold base_entries; by rewrite Hfs').
  assert (base_entries w1 = d1) as Hbase1 by (unfold base_entries; by rewrite Hfs1).
  assert (∀ folder name nd,
             lookup_in (Some (Dir d)) folder name = Some nd →
             lookup_in (fs w1) folder name = Some nd) as Hkept1.
  { intros folder name nd Hl. rewrite Hfs1. unfold lookup_in, folder_entries in *.
    destruct (Hsame folder) as [-> | [Hnone _]]; [done|]. by rewrite Hnone in Hl. }
  assert (∀ x data, d1 !! x = Some (File data) → d !! x = Some (File data)) as Hfiles1.
  { intros x data Hx. destruct (Hsame x) as [<- | [_ Hnew]]; [done | congruence]. }
  rewrite Hbase, Hfs'. split; [|split; [|split]].
  - intros folder name nd Hl. by apply Hkept, Hkept1.
  - intros x data Hx Hno. apply Hstay.
    + rewrite Hbase1. destruct (Hsame x) as [-> | [Hnone _]]; [done | congruence].
    + destruct Hno as [Hnone | (folder & Hsome & [nd Hnd])]; [by left|].
      right. exists folder. split; [done|]. exists nd. by apply Hkept1.
  - intros x data Hx. apply Hfiles in Hx. rewrite Hbase1 in Hx. by apply Hfiles1.
  - intros x folder Hin. apply Hlines in Hin.
    destruct (Hmoved _ _ Hin) as (Hmap & Hfree & Hgone & data & Hwas & Hnow).
    split; [done|]. split; [|split; [done|]].
    + destruct (lookup_in (Some (Dir d)) folder x) as [nd|] eqn:E; [|done].
      apply Hkept1 in E. congruence.
    + exists data. split; [|done]. rewrite Hbase1 in Hwas. by apply Hfiles1.
Qed.

Lemma planned_run_effect_witness :
  let d : gmap string node :=
    <["a.pdf" := File "new"]> (<["notes.xyz" := File "n"]>
      {["Documents" := Dir {["a.pdf" := File "old"]}]}) in
  let w' := (Planned.organize_downloads (λ _, false) ["a.pdf"; "notes.xyz"; "Documents"]
               (World (Some (Dir d)) [])).1 in
  lookup_in (fs w') "Documents" "a.pdf" = Some (File "old") ∧
  base_entries w' !! "a.pdf" = Some (File "new") ∧
  base_entries w' !! "notes.xyz" = Some (File "n").
Proof.
  intros d w'.
  pose proof (planned_run_effect (λ _, false) ["a.pdf"; "notes.xyz"; "Documents"] d)
    as (Hkept & Hstay & _).
  split; [|split].
  - apply Hkept. reflexivity.
  - apply Hstay; [reflexivity|]. right. exists "Documents".
    split; [reflexivity | by eexists].
  - apply Hstay; [reflexivity|]. left. reflexivity.
Defined.

(** The shape of a planned run that reaches its summary. *)
Lemma planned_organize_returns (move_fails : string → bool) (listing : list string)
    (s : option node) (w' : world line) (moved_files : list (string * list string))
    (total_moved : nat) :
  Planned.organize_downloads move_fails listing (World s [])
    = (w', Ret (Some (moved_files, total_moved))) →
  ∃ w1 w2,
    Planned.mkdir_each folder_mapping.*2 (World s []) = (w1, Ret tt) ∧
    for_each_item move_fails listing [] w1 = (w2, Ret moved_files) ∧
    out w' = out w2 ++ Print_summary :: count_lines moved_files
                   ++ [Print_total total_moved] ∧
    total_moved = sum_list (length <$> moved_files.*2).
Proof.
  unfold Planned.organize_downloads, bind, target_exists, iterdir, emit. cbn [fs].
  destruct s as [nd|].
  2:{ rewrite bool_decide_eq_false_2 by (by intros [? [=]]). by intros [=]. }
  rewrite bool_decide_eq_true_2 by eauto. cbn [negb].
  destruct (Planned.mkdir_each folder_mapping.*2 (World (Some nd) []))
    as [w1 [[]|e|]] eqn:Hmk; [|by intros [=]..].
  destruct (fs w1) as [[?|d]|] eqn:Hfs1; [by intros [=] | | by intros [=]].
  destruct (planned_for_each_item_effect move_fails listing [] w1)
    as (w2 & moved & lines & Hloop & _).
  rewrite Hloop. cbn [fs out]. rewrite print_counts_run. cbn [fs out].
  intros [= <- <- <-]. exists w1, w2. cbn [out].
  split; [done|]. split; [done|]. split; [|done].
  by rewrite <- !app_assoc.
Qed.

Lemma sum_append_moved (moved_files : list (string * list string)) (folder name : string) :
  sum_list (length <$> (append_moved moved_files folder name).*2) =
  S (sum_list (length <$> moved_files.*2)).
Proof.
  induction moved_files as [|[f files] rest IH]; [done|].
  cbn [append_moved]. destruct (String.eqb f folder); simpl in *.
  - rewrite length_app. simpl. lia.
  - transitivity (length files + S (sum_list (length <$> rest.*2)));
      [f_equal; exact IH | by rewrite Nat.add_succ_r].
Qed.

Lemma printed_moves_snoc (lines : list line) (l : line) :
  length (printed_moves (lines ++ [l])) =
  length (printed_moves lines) + match l with Print_moved _ _ => 1 | _ => 0 end.
Proof.
  unfold printed_moves. rewrite omap_app, length_app. by destruct l.
Qed.

(** The loop keeps the number of names filed in [moved_files] equal to
    the number of moves printed. *)
Lemma planned_for_each_item_total (move_fails : string → bool) (items : list string) :
  ∀ (moved_files moved_files' : list (string * list string)) (w w' : world line),
    for_each_item move_fails items moved_files w = (w', Ret moved_files') →
    sum_list (length <$> moved_files.*2) = length (printed_moves (out w)) →
    sum_list (length <$> moved_files'.*2) = length (printed_moves (out w')).
Proof.
  induction items as [|name items IH]; intros moved_files moved_files' w w'; simpl.
  - by intros [= <- <-].
  - destruct (planned_process_item_run move_fails name moved_files w)
      as (w1 & moved1 & Hrun & Hcase).
    unfold bind. rewrite Hrun. intros Hloop Hsum. apply (IH _ _ _ _ Hloop).
    destruct Hcase as [[-> ->] | [(e & -> & ->) | (folder & -> & ->)]].
    + done.
    + rewrite printed_moves_snoc. lia.
    + rewrite printed_moves_snoc, sum_append_moved. lia.
Qed.

(** The total the planned program prints is the number of moves it has
    printed, and it is the last line. *)
Theorem planned_total_is_number_of_moves (move_fails : string → bool)
    (listing : list string) (s : option node) (w' : world line)
    (moved_files : list (string * list string)) (total_moved : nat) :
  Planned.organize_downloads move_fails listing (World s [])
    = (w', Ret (Some (moved_files, total_moved))) →
  total_moved = length (printed_moves (out w')) ∧
  last (out w') = Some (Print_total total_moved).
Proof.
  intros Hrun.
  destruct (planned_organize_returns _ _ _ _ _ _ Hrun)
    as (w1 & w2 & Hmk & Hloop & Hout & ->).
  apply planned_mkdir_each_out in Hmk. cbn [out] in Hmk.
  pose proof (planned_for_each_item_total _ _ _ _ _ _ Hloop) as Hsum.
  rewrite Hmk in Hsum. specialize (Hsum eq_refl).
  rewrite Hout. split.
  - rewrite Hsum. unfold printed_moves. rewrite omap_app, length_app.
    replace (omap _ (Print_summary :: count_lines moved_files ++ [Print_total _]))
      with ([] : list (string * string)); [simpl; lia|].
    simpl. rewrite omap_app. simpl. rewrite app_nil_r. symmetry.
    unfold count_lines. clear. induction moved_files as [|p rest IH]; [done|]. done.
  - rewrite app_comm_cons, app_assoc. apply last_snoc.
Qed.

Lemma planned_total_is_number_of_moves_witness :
  let s := Some (Dir (<["a.pdf" := File "1"]> (<["b.JPG" := File "2"]>
                        ({["c.xyz" := File "3"]} : gmap string node)))) in
  let w' := (Planned.organize_downloads (λ _, false) ["a.pdf"; "b.JPG"; "c.xyz"]
               (World s [])).1 in
  2 = length (printed_moves (out w')) ∧ last (out w') = Some (Print_total 2).
Proof.
  intros s w'.
  apply (planned_total_is_number_of_moves (λ _, false) ["a.pdf"; "b.JPG"; "c.xyz"] s w'
           [("Documents", ["a.pdf"]); ("Images", ["b.JPG"])] 2).
  vm_compute. reflexivity.
Defined.

End more_planned.

(* ===================================================================== *)
(** ** Further properties: the table, the preview, and a blocked folder *)
(* ===================================================================== *)

Section more_table.
Import Pathlib Fs Eff Vibed Step Table Log.

Lemma disjoint_extensions_perm (cats cats' : list (string * gset string)) :
  cats ≡ₚ cats' → disjoint_extensions cats → disjoint_extensions cats'.
Proof.
  induction 1 as [|[c e] l l' Hp IH|[c1 e1] [c2 e2] l|l1 l2 l3 _ IH1 _ IH2]; simpl.
  - done.
  - intros [Hall Hd]. split; [by rewrite <- Hp | by apply IH].
  - intros [Hall1 [Hall2 Hd]]. apply Forall_cons in Hall1 as [H12 Hall1]. simpl in H12.
    split; [|done]. apply Forall_cons. split; [by symmetry | done].
  - intros Hd. by apply IH2, IH1.
Qed.

Lemma first_category_elem (ext : string) (cats : list (string * gset string))
    (c : string) :
  first_category ext cats = Some c → ∃ e, (c, e) ∈ cats ∧ ext ∈ e.
Proof.
  induction cats as [|[c' e'] rest IH]; simpl; [done|].
  destruct (decide (ext ∈ e')) as [Hin|Hnin].
  - rewrite bool_decide_eq_true_2 by done. intros [= <-]. exists e'. split; [by left|done].
  - rewrite bool_decide_eq_false_2 by done. intros Hrest.
    destruct (IH Hrest) as (e & He & Hext). exists e. split; [by right | done].
Qed.

(** The category of a file does not depend on the order of the entries
    of the table: since no extension is listed twice, every reordering of
    [get_file_categories] classifies every name alike. *)
Theorem categorize_file_order_independent (name : string)
    (categories : list (string * gset string)) :
  categories ≡ₚ get_file_categories →
  categorize_file name categories = categorize_file name get_file_categories.
Proof.
  intros Hperm. unfold categorize_file.
  assert (disjoint_extensions categories) as Hdis.
  { eapply disjoint_extensions_perm; [symmetry; exact Hperm|].
    apply get_file_categories_disjoint. }
  destruct (first_category (lower (suffix name)) get_file_categories) as [c|] eqn:E.
  - destruct (first_category_elem _ _ _ E) as (e & He & Hext).
    rewrite <- Hperm in He.
    by rewrite (first_category_listed _ _ _ _ Hdis He Hext).
  - destruct (first_category (lower (suffix name)) categories) as [c|] eqn:E'; [|done].
    destruct (first_category_elem _ _ _ E') as (e & He & Hext).
    rewrite Hperm in He.
    rewrite (first_category_listed _ _ _ _ get_file_categories_disjoint He Hext) in E.
    done.
Qed.

Lemma categorize_file_order_independent_witness :
  categorize_file "song.MP3" (reverse get_file_categories) = "Audio".
Proof.
  rewrite (categorize_file_order_independent "song.MP3" (reverse get_file_categories)).
  - reflexivity.
  - apply reverse_Permutation.
Defined.

(** The dry loop announces for each file the first free name in its
    folder, as the directory is on disk. *)
Lemma for_each_item_dry_first_free (move_fails : string → bool) (items : list string) :
  ∀ (n : nat) (w w' : world record) (n' : nat),
    for_each_item move_fails true items n w = (w', Ret n') →
    ∃ recs, out w' = out w ++ recs ∧
            Forall (λ r, match r with
                         | Info_would_move x c destination =>
                             first_free_name (base_entries w) c x destination
                         | _ => False
                         end) recs.
Proof.
  induction items as [|item items IH]; intros n w w' n'; simpl.
  - intros [= <- _]. exists []. by rewrite app_nil_r.
  - destruct (process_item_run move_fails true item n w) as (w1 & n1 & Hrun & Hstep).
    unfold bind. rewrite Hrun. intros Hloop.
    destruct (IH _ _ _ _ Hloop) as (recs & Hout & Hall).
    inversion Hstep as [w0 n0 Hnf
                       | w0 n0 destination category Hdry Hfile Hffn
                       | w0 n0 destination e category Hdry Hfile Hffn Hmv
                       | w0 n0 destination d data ch category Hdry Hmf Hfs Hitem
                           Hch Hffn Hfree];
      subst; try done.
    + by exists recs.
    + exists (Info_would_move item category destination :: recs).
      split; [rewrite Hout; cbn [out]; by rewrite <- app_assoc|].
      by apply Forall_cons.
Qed.

(** The preview of a dry run shows, for every file, the name that file
    would get if it were moved into the directory as it is now: its own
    name when that is free in its folder, and otherwise [stem_N.ext] for
    the least free [N >= 1]. *)
Theorem dry_run_announces_first_free_names (move_fails : string → bool)
    (listing : list string) (d : gmap string node) (x c destination : string) :
  Info_would_move x c destination ∈
    out (organize_downloads move_fails listing true (World (Some (Dir d)) [])).1 →
  first_free_name d c x destination.
Proof.
  pose proof (organize_downloads_dry_run move_fails listing (World (Some (Dir d)) []))
    as Hdry.
  cbn [fs] in Hdry. destruct Hdry as (w2 & n & Hloop & ->). cbn [fst out].
  destruct (for_each_item_dry_first_free _ _ _ _ _ _ Hloop) as (recs & Hout & Hall).
  cbn [out] in Hout. simpl in Hout. rewrite Hout.
  intros [Hin | Hin%list_elem_of_singleton]%elem_of_app; [|done].
  rewrite Forall_forall in Hall. by apply (Hall _ Hin).
Qed.

Lemma dry_run_announces_first_free_names_witness :
  let d : gmap string node :=
    <["a.txt" := File "1"]>
      {["Documents" := Dir (<["a.txt" := File "0"]> {["a_1.txt" := File "00"]})]} in
  first_free_name d "Documents" "a.txt" "a_2.txt".
Proof.
  intros d.
  apply (dry_run_announces_first_free_names (λ _, false) ["a.txt"] d).
  vm_compute. left.
Defined.

End more_table.

(* ===================================================================== *)
(** ** Further properties: a blocked folder in the planned program *)
(* ===================================================================== *)

Section more_planned_folders.
Import Pathlib Fs Eff Log PlannedStep.
Import Planned.

Lemma planned_mkdir_each_file (names : list string) :
  ∀ (d : gmap string node) (printed : list line),
    Exists (λ c, Fs.is_file d c = true) names →
    ∃ w', Planned.mkdir_each names (World (Some (Dir d)) printed)
            = (w', Raise FileExistsError).
Proof.
  induction names as [|c names IH]; intros d printed Hex; simpl.
  - by apply Exists_nil in Hex.
  - unfold bind, Eff.mkdir_exist_ok, Fs.mkdir_exist_ok. cbn [fs out].
    destruct (d !! c) as [[data|ch]|] eqn:Hc.
    + by eexists.
    + apply Exists_cons in Hex as [Hd | Hex]; [|by apply IH].
      unfold Fs.is_file in Hd. by rewrite Hc in Hd.
    + apply Exists_cons in Hex as [Hd | Hex].
      { unfold Fs.is_file in Hd. by rewrite Hc in Hd. }
      apply IH. eapply Exists_impl; [exact Hex|]. intros c' Hd. simpl.
      unfold Fs.is_file in *. destruct (decide (c = c')) as [<-|Hne].
      * by rewrite Hc in Hd.
      * by rewrite lookup_insert_ne.
Qed.

(** A regular file named like one of the folders of the mapping stops the
    planned program in folder creation: it raises [FileExistsError], which
    nothing catches, having printed nothing, neither a move nor the
    summary. *)
Theorem planned_run_stops_at_file_named_like_a_folder (move_fails : string → bool)
    (listing : list string) (d : gmap string node) (c : string) :
  c ∈ folder_mapping.*2 →
  Fs.is_file d c = true →
  ∃ w', Planned.organize_downloads move_fails listing (World (Some (Dir d)) [])
          = (w', Raise FileExistsError) ∧
        out w' = [].
Proof.
  intros Hc Hfile.
  destruct (planned_mkdir_each_file folder_mapping.*2 d []) as (w' & Hmk).
  { apply Exists_exists. eauto. }
  exists w'. split.
  - unfold Planned.organize_downloads, bind, target_exists. cbn [fs].
    rewrite bool_decide_eq_true_2 by eauto. cbn [negb]. by rewrite Hmk.
  - by apply planned_mkdir_each_out in Hmk.
Qed.

Lemma planned_run_stops_at_file_named_like_a_folder_witness :
  let d : gmap string node := <["Videos" := File "not a folder"]> {["a.pdf" := File "text"]} in
  ∃ w', Planned.organize_downloads (λ _, false) ["a.pdf"; "Videos"] (World (Some (Dir d)) [])
          = (w', Raise FileExistsError) ∧
        out w' = [].
Proof.
  intros d.
  apply (planned_run_stops_at_file_named_like_a_folder (λ _, false) ["a.pdf"; "Videos"]
           d "Videos"); [vm_compute; do 3 right; left | reflexivity].
Defined.

End more_planned_folders.
